(** * Fiat on-ramp order processor, mnemonic backup helper and password screen

    A shallow embedding of three JavaScript files of the wallet:
    - [app/components/UI/FiatOrders/orderProcessor/wyreApplePay.js]
      (module [WyreApplePay]),
    - the InstaPay mnemonic helper (module [InstaPay]),
    - the [EnterPasswordSimple] screen (module [EnterPasswordSimple]).

    Module [JS] holds the fragment of JavaScript the three files rely on:
    JSON-shaped values, truthiness, property reads, object spread, the string
    methods [indexOf], [substring], [split] and [includes], and thrown
    values. *)

From Stdlib Require Import Floats ZArith Ascii.
From stdpp Require Import gmap strings list fin_maps pretty.

Set Warnings "-register-all".
Local Open Scope Z_scope.

(* ===================================================================== *)
(** * The JavaScript fragment                                             *)
(* ===================================================================== *)

Module JS.

(** Values are what a JSON payload or a plain state record can hold.
    Numbers are IEEE 754 doubles; strings are sequences of code units;
    objects are finite maps from property names to values. Functions are
    not values of the model: the collaborators that are functions (remote
    calls, the payment sheet, callbacks) are fields of an environment. *)
Inductive value : Type :=
| VUndefined
| VNull
| VBool (b : bool)
| VNum (n : float)
| VStr (s : string)
| VArr (elems : list value)
| VObj (props : gmap string value).

(** What a [throw] or a rejected promise carries.
    - [TypeError]: raised by the engine itself (a property read on
      [undefined] or [null], a call of something that is not a function).
      Its message is engine text that quotes the source expression.
    - [ErrorObject cls message own]: an instance of [Error] or of a subclass
      [cls], with its [message] and its other own properties.
    - [Rejection reason]: any other value a collaborator rejects with. *)
Inductive exn : Type :=
| TypeError
| ErrorObject (cls : string) (message : string) (own : gmap string value)
| Rejection (reason : value).

Inductive outcome (A : Type) : Type :=
| Throw (e : exn)
| Return (a : A).
Arguments Throw {A} e.
Arguments Return {A} a.

#[export] Instance outcome_ret : MRet outcome := @Return.
#[export] Instance outcome_bind : MBind outcome := λ A B f m,
  match m with
  | Throw e => Throw e
  | Return a => f a
  end.

(** [v === s] for a string [s]: strict equality never converts. *)
Definition is_string (s : string) (v : value) : bool :=
  match v with
  | VStr t => String.eqb t s
  | _ => false
  end.

(** ** Truthiness ([ToBoolean]) *)

Definition truthy (v : value) : bool :=
  match v with
  | VUndefined | VNull => false
  | VBool b => b
  | VNum n => negb (PrimFloat.is_zero n || PrimFloat.is_nan n)
  | VStr s => negb (String.eqb s "")
  | VArr _ | VObj _ => true
  end.

(** [a || b] *)
Definition js_or (a b : value) : value := if truthy a then a else b.

(** [v] is [undefined] or [null], the two values no property can be read
    from. *)
Definition is_nullish (v : value) : bool :=
  match v with
  | VUndefined | VNull => true
  | _ => false
  end.

(** ** Strings *)

(** [s.substring(n)]: [s] without its first [n] code units. *)
Fixpoint substring_from (n : nat) (s : string) : string :=
  match n, s with
  | O, _ => s
  | S n', String _ s' => substring_from n' s'
  | S _, EmptyString => EmptyString
  end.

(** [s.startsWith(p)], the test [indexOf] makes at each position. *)
Fixpoint starts_with (p s : string) : bool :=
  match p, s with
  | EmptyString, _ => true
  | String a p', String b s' => Ascii.eqb a b && starts_with p' s'
  | String _ _, EmptyString => false
  end.

(** [s.indexOf(p)] searching from position [i] of the original string: the
    first position at which [p] occurs, or [-1]. *)
Fixpoint indexOf_from (p s : string) (i : Z) : Z :=
  if starts_with p s then i
  else match s with
       | EmptyString => -1
       | String _ s' => indexOf_from p s' (i + 1)
       end.

Definition indexOf (s p : string) : Z := indexOf_from p s 0.

(** [s.includes(p)] *)
Definition includes (s p : string) : bool := negb (indexOf s p =? -1).

(** [s.split(sep)] for a separator of one code unit. *)
Fixpoint split_on (sep : ascii) (s : string) : list string :=
  match s with
  | EmptyString => [EmptyString]
  | String c s' =>
      if Ascii.eqb c sep then EmptyString :: split_on sep s'
      else match split_on sep s' with
           | [] => [String c EmptyString]
           | w :: ws => String c w :: ws
           end
  end.

Fixpoint chars (s : string) : list string :=
  match s with
  | EmptyString => []
  | String c s' => String c EmptyString :: chars s'
  end.

(** ** [ToString]

    The digits of a number are the engine's business: [Number_toString] is
    a parameter. Arrays join their elements with commas, [null] and
    [undefined] elements printing as nothing. *)
Section ToString.
Variable Number_toString : float → string.

Fixpoint to_string (v : value) : string :=
  match v with
  | VUndefined => "undefined"
  | VNull => "null"
  | VBool true => "true"
  | VBool false => "false"
  | VNum n => Number_toString n
  | VStr s => s
  | VArr l =>
      let elem x := match x with
                    | VUndefined | VNull => EmptyString
                    | _ => to_string x
                    end in
      (fix join (l : list value) : string :=
         match l with
         | [] => EmptyString
         | [x] => elem x
         | x :: r => elem x +:+ "," +:+ join r
         end) l
  | VObj _ => "[object Object]"
  end.

End ToString.

(** ** Properties *)

Definition number_of_nat (n : nat) : float :=
  PrimFloat.of_uint63 (Uint63.of_Z (Z.of_nat n)).

Definition indexed (l : list value) : gmap string value :=
  list_to_map (imap (λ i x, (pretty i, x)) l).

(** Own enumerable properties, which is what [{...v}] copies: the
    properties of an object, the elements of an array and the code units of
    a string under their indices, nothing for the other values. *)
Definition own_props (v : value) : gmap string value :=
  match v with
  | VObj m => m
  | VArr l => indexed l
  | VStr s => indexed (VStr <$> chars s)
  | _ => ∅
  end.

(** [v.k] for a data property. Reading from [undefined] or [null] throws;
    a missing property reads as [undefined]. Members inherited from the
    built-in prototypes are functions and are outside the model, [length]
    apart. *)
Definition js_get (v : value) (k : string) : outcome value :=
  match v with
  | VUndefined | VNull => Throw TypeError
  | _ =>
      Return
        match own_props v !! k with
        | Some x => x
        | None =>
            match v with
            | VArr l => if String.eqb k "length" then VNum (number_of_nat (length l)) else VUndefined
            | VStr s => if String.eqb k "length" then VNum (number_of_nat (String.length s)) else VUndefined
            | _ => VUndefined
            end
        end
  end.

(** [v.k] where [v] is known not to be [undefined] or [null]. *)
Definition read (v : value) (k : string) : value :=
  match js_get v k with
  | Return x => x
  | Throw _ => VUndefined
  end.

(** An object literal [{k1: v1, ..., kn: vn}] with distinct keys. *)
Definition object (l : list (string * value)) : value := VObj (list_to_map l).

(** ** Thrown values *)

(** [new Error(message)]: an absent message leaves the inherited empty
    one, any other is converted to a string. *)
Definition Error_message (Number_toString : float → string) (message : value) : string :=
  match message with
  | VUndefined => EmptyString
  | _ => to_string Number_toString message
  end.

(** [error.message.includes(p)] for a caught [error]. The text of an
    engine [TypeError] quotes source expressions of this program, none of
    which contains the patterns searched for. *)
Definition message_includes (error : exn) (p : string) : outcome bool :=
  match error with
  | TypeError => Return false
  | ErrorObject _ message _ => Return (includes message p)
  | Rejection reason =>
      message ← js_get reason "message";
      match message with
      | VStr s => Return (includes s p)
      | VArr l => Return (existsb (is_string p) l)
      | _ => Throw TypeError
      end
  end.

(** ** Computations: a log of calls and an outcome

    An [async] function is a computation over the log of the calls made to
    the outside so far, whose type [C] each file chooses. It returns or
    throws (its promise resolves or rejects) and extends the log. *)

Definition M (C A : Type) : Type := list C → outcome A * list C.

#[export] Instance M_ret {C} : MRet (M C) := λ A a log, (Return a, log).
#[export] Instance M_bind {C} : MBind (M C) := λ A B f m log,
  match m log with
  | (Throw e, log') => (Throw e, log')
  | (Return a, log') => f a log'
  end.

(** A pure step that may throw. *)
Definition lift {C A} (o : outcome A) : M C A := λ log, (o, log).

Definition throw {C A} (e : exn) : M C A := lift (Throw e).

(** [await f(...)]: the call is logged and its outcome is the
    collaborator's, which may depend on what happened before. *)
Definition await_in {C A} (c : C) (o : list C → outcome A) : M C A :=
  λ log, (o log, log ++ [c]).

Definition await {C A} (c : C) (o : outcome A) : M C A := await_in c (λ _, o).

(** A call whose result is dropped: logged, never throwing here. *)
Definition fire {C} (c : C) : M C unit := λ log, (Return tt, log ++ [c]).

(** [try { body } catch (error) { handler }] *)
Definition try_catch {C A} (body : M C A) (handler : exn → M C A) : M C A := λ log,
  match body log with
  | (Throw e, log') => handler e log'
  | (Return a, log') => (Return a, log')
  end.

(** A run from an empty log. *)
Definition run {C A} (m : M C A) : outcome A * list C := m [].

End JS.

(* ===================================================================== *)
(** * wyreApplePay.js                                                     *)
(* ===================================================================== *)

Module WyreApplePay.
Import JS.

(** ** Collaborators *)

(** What the HTTP client resolves with. The status is the HTTP status
    code, a natural number. The client's own handles ([config], [request])
    are not data and are left out. *)
Record Response : Type := {
  data : value;
  status : Z;
  statusText : string;
  headers : value
}.

Definition number_of_Z (z : Z) : float := PrimFloat.of_uint63 (Uint63.of_Z z).

(** A response seen as a plain object, which is how the code uses one when
    it reads a property other than [data] and [status] or stores it. *)
Definition response_value (r : Response) : value :=
  object [("data", data r);
          ("status", VNum (number_of_Z (status r)));
          ("statusText", VStr (statusText r));
          ("headers", headers r)].

(** [FIAT_ORDER_STATES] of [reducers/fiatOrders], of which the file uses
    three members. *)
Record FiatOrderStates : Type := {
  PENDING : value;
  COMPLETED : value;
  CANCELLED : value
}.

(** [FIAT_ORDER_PROVIDERS] of [reducers/fiatOrders]. *)
Record FiatOrderProviders : Type := {
  WYRE_APPLE_PAY : value
}.

(** What the payment sheet resolves with when the user confirms. *)
Record PaymentResponse : Type := {
  details : value
}.

(** The imports and the outside world: the constants of
    [reducers/fiatOrders], the partner account of the environment file, the
    engine's number printing, the remote API behind the HTTP client and the
    payment sheet.
    - [wyreAPI_get url] is what [wyreAPI.get(url)] resolves or rejects
      with.
    - [wyreAPI_post url payload] is the answer to the submission, or the
      failure to get one (a network error, the timeout), before the
      [validateStatus] that [createFiatOrder] passes to the client.
    - [PaymentRequest_new] is the constructor of the payment request, which
      validates what it is given; [paymentRequest_show] is what the sheet
      resolves with (a response, or nothing) or rejects with;
      [paymentResponse_complete] is the awaited [complete]. *)
Record Env : Type := {
  FIAT_ORDER_STATES : FiatOrderStates;
  FIAT_ORDER_PROVIDERS : FiatOrderProviders;
  partnerId : value;
  Number_toString : float → string;
  wyreAPI_get : string → outcome Response;
  wyreAPI_post : string → value → outcome Response;
  PaymentRequest_new : value → outcome unit;
  paymentRequest_show : outcome (option PaymentResponse);
  paymentResponse_complete : string → outcome unit
}.

(** The calls made to the outside, in order. *)
Inductive call : Type :=
| HttpGet (url : string)
| HttpPost (url : string) (payload : value)
| SheetNew (paymentDetails : value)
| SheetShow
| SheetComplete (result : string)
| SheetAbort.

(** ** Constants *)

Module WYRE_ORDER_STATES.
Definition RUNNING_CHECKS : string := "RUNNING_CHECKS".
Definition FAILED : string := "FAILED".
Definition PROCESSING : string := "PROCESSING".
Definition COMPLETE : string := "COMPLETE".
End WYRE_ORDER_STATES.

Module PAYMENT_REQUEST_COMPLETE.
Definition SUCCESS : string := "success".
Definition UNKNOWN : string := "unknown".
Definition FAIL : string := "fail".
End PAYMENT_REQUEST_COMPLETE.

Definition USD_CURRENCY_CODE : string := "USD".
Definition ETH_CURRENCY_CODE : string := "ETH".

(** ** Helpers *)

(** [dest.indexOf('ethereum:') === 0 ? dest.substring(9) : dest].
    A string has both methods. An array has [indexOf] (the position of the
    first element strictly equal to the argument) and no [substring]. No
    other value has an [indexOf] to call. *)
Fixpoint array_indexOf (p : string) (l : list value) (i : Z) : Z :=
  match l with
  | [] => -1
  | x :: r => if is_string p x then i else array_indexOf p r (i + 1)
  end.

Definition destToAddress (dest : value) : outcome value :=
  match dest with
  | VStr s =>
      Return (if indexOf s "ethereum:" =? 0 then VStr (substring_from 9 s) else dest)
  | VArr l =>
      if array_indexOf "ethereum:" l 0 =? 0 then Throw TypeError else Return dest
  | _ => Throw TypeError
  end.

(** [class WyreException extends Error]: [super(message)], then the two
    own properties. *)
Definition WyreException (Number_toString : float → string) (message type exceptionId : value) : exn :=
  ErrorObject "WyreException" (Error_message Number_toString message)
    (<["id" := exceptionId]> (<["type" := type]> ∅)).

(** [str.split('\n')] *)
Definition js_split_lines (str : value) : outcome value :=
  match str with
  | VStr s => Return (VArr (VStr <$> split_on (ascii_of_nat 10) s))
  | _ => Throw TypeError
  end.

Section WithEnv.
Context (env : Env).

(** [validateStatus: status => status >= 200]: the client resolves with
    a response that passes and rejects with an error for one that does
    not. *)
Definition validateStatus (status : Z) : bool := 200 <=? status.

Definition createFiatOrder (payload : value) : M call Response :=
  let url := "v3/apple-pay/process/partner" in
  await (HttpPost url payload)
    (response ← env.(wyreAPI_post) url payload;
     if validateStatus (status response) then Return response
     else Throw (ErrorObject "Error"
                   ("Request failed with status code " +:+ pretty (status response))
                   (<["response" := response_value response]> ∅))).

Definition getOrderStatus (orderId : value) : M call Response :=
  let url := "v3/orders/" +:+ to_string env.(Number_toString) orderId in
  await (HttpGet url) (env.(wyreAPI_get) url).

Definition getTransferStatus (transferId : value) : M call Response :=
  let url := "v2/transfer/" +:+ to_string env.(Number_toString) transferId +:+ "/track" in
  await (HttpGet url) (env.(wyreAPI_get) url).

(** The [switch] compares with [===], case by case from the top; the two
    cases that fall through to [default] share its body. *)
Definition wyreOrderStateToFiatState (wyreOrderState : value) : value :=
  if is_string WYRE_ORDER_STATES.COMPLETE wyreOrderState then
    env.(FIAT_ORDER_STATES).(COMPLETED)
  else if is_string WYRE_ORDER_STATES.FAILED wyreOrderState then
    env.(FIAT_ORDER_STATES).(CANCELLED)
  else if is_string WYRE_ORDER_STATES.RUNNING_CHECKS wyreOrderState then
    env.(FIAT_ORDER_STATES).(PENDING)
  else if is_string WYRE_ORDER_STATES.PROCESSING wyreOrderState then
    env.(FIAT_ORDER_STATES).(PENDING)
  else
    env.(FIAT_ORDER_STATES).(PENDING).

Definition wyreOrderToFiatOrder (wyreOrder : value) : outcome value :=
  id ← js_get wyreOrder "id";
  sourceAmount ← js_get wyreOrder "sourceAmount";
  sourceCurrency ← js_get wyreOrder "sourceCurrency";
  destCurrency ← js_get wyreOrder "destCurrency";
  status ← js_get wyreOrder "status";
  dest ← js_get wyreOrder "dest";
  account ← destToAddress dest;
  Return (object
    [("id", id);
     ("provider", env.(FIAT_ORDER_PROVIDERS).(WYRE_APPLE_PAY));
     ("amount", sourceAmount);
     ("fee", VNull);
     ("cryptoAmount", VNull);
     ("cryptoFee", VNull);
     ("currency", sourceCurrency);
     ("cryptocurrency", destCurrency);
     ("state", wyreOrderStateToFiatState status);
     ("account", account);
     ("txHash", VNull);
     ("data", object [("order", wyreOrder)])]).

(** [wyreTransfer.fee ? wyreTransfer.fee[wyreTransfer.destCurrency] : null]
    reads [fee], not [fees], and indexes it by the destination currency. *)
Definition wyreTransferToFiatOrder (wyreTransfer : value) : outcome value :=
  fee ← js_get wyreTransfer "fee";
  destAmount ← js_get wyreTransfer "destAmount";
  cryptoFee ←
    (if truthy fee then
       destCurrency ← js_get wyreTransfer "destCurrency";
       js_get fee (to_string env.(Number_toString) destCurrency)
     else Return VNull);
  blockchainNetworkTx ← js_get wyreTransfer "blockchainNetworkTx";
  Return (object
    [("fee", fee);
     ("cryptoAmount", destAmount);
     ("cryptoFee", cryptoFee);
     ("txHash", blockchainNetworkTx)]).

(** ** Handlers *)

(** [const transfer = await getTransferStatus(transferId)] binds the whole
    response, where [const { data } = await getOrderStatus(order.id)] binds
    its body. *)
Definition processWyreApplePayOrder (order : value) : M call value :=
  try_catch
    (id ← lift (js_get order "id");
     response ← getOrderStatus id;
     let data := data response in
     if negb (truthy data) then mret order
     else
       transferId ← lift (js_get data "transferId");
       if truthy transferId then
         response' ← getTransferStatus transferId;
         let transfer := response_value response' in
         fromOrder ← lift (wyreOrderToFiatOrder data);
         fromTransfer ← lift (wyreTransferToFiatOrder transfer);
         mret (VObj (<["data" := object [("order", data); ("transfer", transfer)]]>
                       (own_props fromTransfer ∪ (own_props fromOrder ∪ own_props order))))
       else
         fromOrder ← lift (wyreOrderToFiatOrder data);
         mret (VObj (own_props fromOrder ∪ own_props order)))
    (λ error, mret order).

(** ** Payment request *)

Definition createPayload (amount address paymentDetails : value) : outcome value :=
  billingContact ← js_get paymentDetails "billingContact";
  postalAddress ← js_get billingContact "postalAddress";
  name ← js_get billingContact "name";
  paymentData ← js_get paymentDetails "paymentData";
  paymentMethod ← js_get paymentDetails "paymentMethod";
  shippingContact ← js_get paymentDetails "shippingContact";
  transactionIdentifier ← js_get paymentDetails "transactionIdentifier";
  let dest := VStr ("ethereum:" +:+ to_string env.(Number_toString) address) in
  street ← js_get postalAddress "street";
  addressLines ← js_split_lines street;
  administrativeArea ← js_get postalAddress "state";
  country ← js_get postalAddress "country";
  countryCode ← js_get postalAddress "ISOCountryCode";
  familyName ← js_get name "familyName";
  givenName ← js_get name "givenName";
  locality ← js_get postalAddress "city";
  postalCode ← js_get postalAddress "postalCode";
  subAdministrativeArea ← js_get postalAddress "subAdministrativeArea";
  subLocality ← js_get postalAddress "subLocality";
  let formattedBillingContact := object
    [("addressLines", addressLines);
     ("administrativeArea", administrativeArea);
     ("country", country);
     ("countryCode", countryCode);
     ("familyName", familyName);
     ("givenName", givenName);
     ("locality", locality);
     ("postalCode", postalCode);
     ("subAdministrativeArea", subAdministrativeArea);
     ("subLocality", subLocality)] in
  emailAddress ← js_get shippingContact "emailAddress";
  phoneNumber ← js_get shippingContact "phoneNumber";
  let formattedShippingContact :=
    VObj (<["phoneNumber" := phoneNumber]>
            (<["emailAddress" := emailAddress]> (own_props formattedBillingContact))) in
  Return (object
    [("partnerId", env.(partnerId));
     ("payload", object
        [("orderRequest", object
            [("amount", amount);
             ("dest", dest);
             ("destCurrency", VStr ETH_CURRENCY_CODE);
             ("referrerAccountId", env.(partnerId));
             ("sourceCurrency", VStr USD_CURRENCY_CODE)]);
         ("paymentObject", object
            [("billingContact", formattedBillingContact);
             ("shippingContact", formattedShippingContact);
             ("token", object
                [("paymentData", paymentData);
                 ("paymentMethod", VObj (<["type" := VStr "debit"]> (own_props paymentMethod)));
                 ("transactionIdentifier", transactionIdentifier)])])])]).

(** ** Hooks *)

(** The [showRequest] callback of [useWyreApplePay], over what its closure
    captures: [address], [network], [paymentDetails] and [total]. The
    payment request is built before the [try]; it has an [abort] method. *)
Definition showRequest (address network paymentDetails total : value) : M call value :=
  _ ← await (SheetNew paymentDetails) (env.(PaymentRequest_new) paymentDetails);
  try_catch
    (paymentResponse ← await SheetShow env.(paymentRequest_show);
     match paymentResponse with
     | None => throw (ErrorObject "Error" "Payment Request Failed" ∅)
     | Some paymentResponse =>
         payload ← lift (createPayload total address (details paymentResponse));
         response ← createFiatOrder payload;
         let data := data response in
         let status := status response in
         if (200 <=? status) && (status <? 300) then
           _ ← await (SheetComplete PAYMENT_REQUEST_COMPLETE.SUCCESS)
                 (env.(paymentResponse_complete) PAYMENT_REQUEST_COMPLETE.SUCCESS);
           fromOrder ← lift (wyreOrderToFiatOrder data);
           mret (VObj (<["network" := network]> (own_props fromOrder)))
         else
           _ ← fire (SheetComplete PAYMENT_REQUEST_COMPLETE.FAIL);
           message ← lift (js_get data "message");
           type ← lift (js_get data "type");
           exceptionId ← lift (js_get data "exceptionId");
           throw (WyreException env.(Number_toString) message type exceptionId)
     end)
    (λ error,
       aborted ← lift (message_includes error "AbortError");
       if aborted : bool then mret VNull
       else
         _ ← fire SheetAbort;
         throw error).

End WithEnv.

(** ** Module constants

    The constants the file computes when it is loaded, from the variables
    of the environment file and from [process.env.NODE_ENV]. *)

Record DotEnv : Type := {
  WYRE_API_ENDPOINT : value;
  WYRE_API_ENDPOINT_TEST : value;
  WYRE_ACCOUNT_ID : value;
  WYRE_ACCOUNT_ID_TEST : value;
  WYRE_MERCHANT_ID : value;
  WYRE_MERCHANT_ID_TEST : value
}.

Module Config.
Section WithDotEnv.
Context (dotenv : DotEnv) (NODE_ENV : value).

(** [process.env.NODE_ENV !== 'production'] *)
Definition isDevelopment : bool := negb (is_string "production" NODE_ENV).

(** ['test' || isDevelopment ? WYRE_MERCHANT_ID_TEST : WYRE_MERCHANT_ID]:
    the conditional has the whole disjunction as its test. *)
Definition merchantIdentifier : value :=
  if truthy (js_or (VStr "test") (VBool isDevelopment))
  then dotenv.(WYRE_MERCHANT_ID_TEST)
  else dotenv.(WYRE_MERCHANT_ID).

Definition partnerId : value :=
  if isDevelopment then dotenv.(WYRE_ACCOUNT_ID_TEST) else dotenv.(WYRE_ACCOUNT_ID).

Definition baseURL : value :=
  if isDevelopment then dotenv.(WYRE_API_ENDPOINT_TEST) else dotenv.(WYRE_API_ENDPOINT).

Definition methodData : value :=
  VArr [object
    [("supportedMethods", VArr [VStr "apple-pay"]);
     ("supportedTypes", VArr [VStr "debit"]);
     ("data", object
        [("countryCode", VStr "US");
         ("currencyCode", VStr USD_CURRENCY_CODE);
         ("supportedNetworks", VArr [VStr "visa"; VStr "mastercard"; VStr "discover"]);
         ("merchantIdentifier", merchantIdentifier)])]].

End WithDotEnv.
End Config.

(** ** Vocabulary of the statements *)

(** The addresses the three remote calls go to. *)
Definition order_url (env : Env) (orderId : value) : string :=
  "v3/orders/" +:+ to_string env.(Number_toString) orderId.

Definition transfer_url (env : Env) (transferId : value) : string :=
  "v2/transfer/" +:+ to_string env.(Number_toString) transferId +:+ "/track".

Definition process_url : string := "v3/apple-pay/process/partner".

(** The record [wyreOrderToFiatOrder] builds from a remote order [w] whose
    destination normalises to [account]. *)
Definition normalized (env : Env) (w account : value) : value :=
  object
    [("id", read w "id");
     ("provider", env.(FIAT_ORDER_PROVIDERS).(WYRE_APPLE_PAY));
     ("amount", read w "sourceAmount");
     ("fee", VNull);
     ("cryptoAmount", VNull);
     ("cryptoFee", VNull);
     ("currency", read w "sourceCurrency");
     ("cryptocurrency", read w "destCurrency");
     ("state", wyreOrderStateToFiatState env (read w "status"));
     ("account", account);
     ("txHash", VNull);
     ("data", object [("order", w)])].

(** What [wyreTransferToFiatOrder] makes of a response. *)
Definition transferFields : value :=
  object [("fee", VUndefined); ("cryptoAmount", VUndefined);
          ("cryptoFee", VNull); ("txHash", VUndefined)].

(** The two records [processWyreApplePayOrder] can build. *)
Definition mergedOrder (env : Env) (order body account : value) : value :=
  VObj (own_props (normalized env body account) ∪ own_props order).

Definition mergedTransfer (env : Env) (order body account : value) (response' : Response) : value :=
  VObj (<["data" := object [("order", body); ("transfer", response_value response')]]>
          (own_props transferFields
           ∪ (own_props (normalized env body account) ∪ own_props order))).

(** The confirmation details [createPayload] can work with: every
    contact it reads from is there, and the street is a string. *)
Definition usableDetails (details : value) : bool :=
  let billingContact := read details "billingContact" in
  let postalAddress := read billingContact "postalAddress" in
  negb (is_nullish details)
  && negb (is_nullish billingContact)
  && negb (is_nullish postalAddress)
  && negb (is_nullish (read billingContact "name"))
  && negb (is_nullish (read details "shippingContact"))
  && match read postalAddress "street" with
     | VStr _ => true
     | _ => false
     end.

(** A call that only reads from the remote API. *)
Definition is_get (c : call) : bool :=
  match c with
  | HttpGet _ => true
  | _ => false
  end.

(** A call that submits to the remote API. *)
Definition is_post (c : call) : bool :=
  match c with
  | HttpPost _ _ => true
  | _ => false
  end.

(** The keys of that record. *)
Definition normalizedKeys : list string :=
  ["id"; "provider"; "amount"; "fee"; "cryptoAmount"; "cryptoFee"; "currency";
   "cryptocurrency"; "state"; "account"; "txHash"; "data"].

End WyreApplePay.

(* ===================================================================== *)
(** * The InstaPay mnemonic helper                                        *)
(* ===================================================================== *)

Module InstaPay.
Import JS.

Definition MESSAGE_2_SIGN : string := "InstaPayMnemonic".
Definition DATA_KEY : string := "instapay_data".

(** A keyring of [KeyringController.state.keyrings]: its accounts, in
    order. *)
Record Keyring : Type := {
  accounts : list value
}.

(** The calls made to the outside, in order. *)
Inductive engine_call : Type :=
| SignPersonalMessage (messageParams : value)
| Encrypt (password plaintext : value)
| Decrypt (password ciphertext : value)
| SetItem (key : string) (item : value).

(** [Engine.context.KeyringController], the [byteArrayToHex] import and
    [AsyncStorage]. A signature may depend on anything that happened
    before the call, hence on the log. *)
Record Engine : Type := {
  byteArrayToHex : string → value;
  keyrings : list Keyring;
  signPersonalMessage : list engine_call → value → outcome value;
  AsyncStorage_setItem : string → value → outcome value
}.

(** The [encryptor] argument. Encryption may draw fresh salt at each
    call. *)
Record Encryptor : Type := {
  encrypt : list engine_call → value → value → outcome value;
  decrypt : list engine_call → value → value → outcome value
}.

Section WithEngine.
Context (env : Engine).

(** [allKeyrings.reduce((list, keyring) => list.concat(keyring.accounts), [])] *)
Definition accountsOrdered : list value :=
  foldl (λ list keyring, list ++ accounts keyring) [] env.(keyrings).

(** [accountsOrdered[0]]: reading past the end gives [undefined]. *)
Definition account0 : value := nth 0 accountsOrdered VUndefined.

Definition signMessageWithAccount0 (message : string) : M engine_call value :=
  let hexMessage := env.(byteArrayToHex) message in
  let messageParams := object [("data", hexMessage); ("from", account0)] in
  rawSig ← await_in (SignPersonalMessage messageParams)
             (λ log, env.(signPersonalMessage) log messageParams);
  mret rawSig.

Definition encryptMnenomic (encryptor : Encryptor) (mnemonic : value) : M engine_call value :=
  password ← signMessageWithAccount0 MESSAGE_2_SIGN;
  await_in (Encrypt password mnemonic)
    (λ log, encryptor.(encrypt) log password mnemonic).

Definition decryptMnemonic (encryptor : Encryptor) (encryptedMnemonic : value) : M engine_call value :=
  password ← signMessageWithAccount0 MESSAGE_2_SIGN;
  await_in (Decrypt password encryptedMnemonic)
    (λ log, encryptor.(decrypt) log password encryptedMnemonic).

Definition saveMnemonic (encryptor : Encryptor) (mnemonic : value) : M engine_call value :=
  encryptedMnemonic ← encryptMnenomic encryptor mnemonic;
  let key := "@MetaMask:InstaPayMnemonic" in
  await (SetItem key encryptedMnemonic) (env.(AsyncStorage_setItem) key encryptedMnemonic).

End WithEngine.

(** The [instance] argument of the backup functions: a private box, over
    its contents [B]. Each call answers and leaves the box in a new
    state. *)
Record Box (B : Type) : Type := {
  privateSetBox : string → value → B → outcome value * B;
  privateGetBox : string → B → outcome value * B
}.
Arguments privateSetBox {B} _ _ _ _.
Arguments privateGetBox {B} _ _ _.

Definition backupMnemonic {B} (instance : Box B) (encryptedMnemonic : value)
  : B → outcome value * B :=
  instance.(privateSetBox) DATA_KEY encryptedMnemonic.

Definition getMnemonicFromBackup {B} (instance : Box B) : B → outcome value * B :=
  instance.(privateGetBox) DATA_KEY.

End InstaPay.

(* ===================================================================== *)
(** * The EnterPasswordSimple screen                                      *)
(* ===================================================================== *)

Module EnterPasswordSimple.
Import JS.

(** [this.state]. The password is whatever text the user typed. It is held
    as the sequence of its UTF-16 code units, which is what [length] counts:
    a letter outside the Latin alphabet is one code unit, a character outside
    the basic plane is two. *)
Record State : Type := {
  password : list N;
  loading : bool;
  error : value
}.

Definition initialState : State :=
  {| password := []; loading := false; error := VNull |}.

(** [this.props.navigation]: calling the [onPasswordSet] callback of the
    navigation parameters, and calling [pop], each of which returns or
    throws. *)
Record Props : Type := {
  onPasswordSet : list N → outcome value;
  navigation_pop : outcome value
}.

(** What the handler calls: the alert, the [onPasswordSet] callback and
    [navigation.pop]. *)
Inductive ui_call : Type :=
| AlertAlert (title message : string)
| OnPasswordSet (password : list N)
| NavigationPop.

Section WithLocale.
(** [strings] of [locales/i18n], and [Alert.alert] *)
Variable strings : string → string.
Variable Alert_alert : string → string → outcome value.

(** Nothing is caught: an error thrown by a call ends the handler, whose
    promise rejects with it. *)
Definition onPressConfirm (props : Props) (state : State) : M ui_call unit :=
  if loading state then mret tt
  else if (Z.of_nat (length (password state)) <? 8) then
    let title := strings "enter_password.error" in
    let message := strings "choose_password.password_length_error" in
    _ ← await (AlertAlert title message) (Alert_alert title message);
    mret tt
  else
    _ ← await (OnPasswordSet (password state)) (props.(onPasswordSet) (password state));
    _ ← await NavigationPop props.(navigation_pop);
    mret tt.

End WithLocale.

Definition onPasswordChange (val : list N) (state : State) : State :=
  {| password := val; loading := loading state; error := error state |}.

(** [disabled={!(this.state.password !== '' || this.state.password.length < 8)}]
    of the confirm button. *)
Definition submitDisabled (state : State) : bool :=
  negb (negb (match password state with [] => true | _ :: _ => false end)
        || (Z.of_nat (length (password state)) <? 8)).

(** The state after the user edited the field through the values [vals],
    one [onPasswordChange] each, from the initial state. Nothing else in the
    component sets the state. *)
Definition afterEdits (vals : list (list N)) : State :=
  foldl (λ state val, onPasswordChange val state) initialState vals.

(** The calls of a log that are calls of [onPasswordSet], and those that
    are calls of [pop]. *)
Definition calls_onPasswordSet (c : ui_call) : bool :=
  match c with OnPasswordSet _ => true | _ => false end.

Definition calls_pop (c : ui_call) : bool :=
  match c with NavigationPop => true | _ => false end.

End EnterPasswordSimple.

Module EnterPasswordSimpleExamples.
Import JS EnterPasswordSimple.

(** The code units of a text written in ASCII. *)
Fixpoint ascii_text (s : string) : list N :=
  match s with
  | EmptyString => []
  | String c s' => N_of_ascii c :: ascii_text s'
  end.

(** A password of six Cyrillic letters and a digit: seven code units. *)
Definition cyrillic7 : list N := [1087; 1072; 1088; 1086; 1083; 1100; 49]%N.

(** A password of four characters outside the basic plane, each a
    surrogate pair: eight code units. *)
Definition astral4 : list N :=
  [55357; 56832; 55357; 56833; 55357; 56834; 55357; 56835]%N.

(** An alert that shows, and a navigation whose callback accepts the
    password. *)
Definition showing : string → string → outcome value := λ _ _, Return VUndefined.

Definition accepting : Props :=
  {| onPasswordSet := λ _, Return VUndefined; navigation_pop := Return VUndefined |}.

(** A navigation whose callback throws. *)
Definition refusing : Props :=
  {| onPasswordSet := λ _, Throw (ErrorObject "Error" "wrong password" ∅);
     navigation_pop := Return VUndefined |}.

End EnterPasswordSimpleExamples.

(* ===================================================================== *)
(** * Example payloads and environments                                   *)
(* ===================================================================== *)

Module Examples.
Import JS WyreApplePay.

Definition fiatOrderStates : FiatOrderStates :=
  {| PENDING := VStr "PENDING"; COMPLETED := VStr "COMPLETED"; CANCELLED := VStr "CANCELLED" |}.

Definition fiatOrderProviders : FiatOrderProviders :=
  {| WYRE_APPLE_PAY := VStr "WYRE_APPLE_PAY" |}.

Definition response (code : Z) (body : value) : Response :=
  {| data := body; status := code; statusText := EmptyString; headers := object [] |}.

Definition networkError : exn := ErrorObject "Error" "Network Error" ∅.

(** The order as the application stored it at checkout, with fee fields
    a previous reconciliation filled in. *)
Definition storedOrder : value :=
  object [("id", VStr "WO_ELTUVYCAFPG");
          ("provider", VStr "WYRE_APPLE_PAY");
          ("amount", VNum 1.5%float);
          ("fee", VNum 0.25%float);
          ("cryptoAmount", VNum 0.5%float);
          ("cryptoFee", VNum 0.125%float);
          ("currency", VStr "USD");
          ("cryptocurrency", VStr "ETH");
          ("state", VStr "PENDING");
          ("account", VStr "0x9E01E0E60dF079136a7a1d4ed97d709D5Fe3e341");
          ("txHash", VStr "0xOLD");
          ("network", VStr "1")].

(** A remote order, after the documentation of the Apple Pay order API. *)
Definition wyreOrder (status transferId : value) : value :=
  object [("id", VStr "WO_ELTUVYCAFPG");
          ("owner", VStr "account:AC_RNWQNRAZFPC");
          ("status", status);
          ("transferId", transferId);
          ("sourceAmount", VNum 2.5%float);
          ("sourceCurrency", VStr "USD");
          ("destCurrency", VStr "ETH");
          ("dest", VStr "ethereum:0x9E01E0E60dF079136a7a1d4ed97d709D5Fe3e341");
          ("walletType", VStr "APPLE_PAY")].

(** A remote transfer, after the documentation of the transfer API: [fee]
    is a number, [fees] holds the fee per currency. *)
Definition wyreTransfer : value :=
  object [("transferId", VStr "TF_MDA6MAY848D");
          ("feeCurrency", VStr "USD");
          ("fee", VNum 0.75%float);
          ("fees", object [("ETH", VNum 0.0625%float); ("USD", VNum 0.75%float)]);
          ("sourceCurrency", VStr "USD");
          ("destCurrency", VStr "ETH");
          ("sourceAmount", VNum 2.5%float);
          ("destAmount", VNum 0.03125%float);
          ("status", VStr "COMPLETED");
          ("blockchainNetworkTx", VStr "0xHASH")].

(** A remote error, after the documentation of the API errors. *)
Definition wyreError (message : string) : value :=
  object [("exceptionId", VStr "EX_1");
          ("type", VStr "ValidationException");
          ("errorCode", VStr "validation.invalidAmount");
          ("message", VStr message);
          ("language", VStr "en");
          ("transient", VBool false)].

(** What the payment sheet hands over on confirmation. *)
Definition sheetDetails : value :=
  object [("billingContact", object
             [("postalAddress", object
                 [("street", VStr "1 Main St");
                  ("state", VStr "CA");
                  ("country", VStr "United States");
                  ("ISOCountryCode", VStr "US");
                  ("city", VStr "Los Angeles");
                  ("postalCode", VStr "90001");
                  ("subAdministrativeArea", VStr "");
                  ("subLocality", VStr "")]);
              ("name", object [("familyName", VStr "Doe"); ("givenName", VStr "Jo")])]);
          ("paymentData", VStr "PAYMENTDATA");
          ("paymentMethod", object [("displayName", VStr "Visa 2942"); ("network", VStr "Visa")]);
          ("shippingContact", object
             [("emailAddress", VStr "user@company.com"); ("phoneNumber", VStr "5550100")]);
          ("transactionIdentifier", VStr "TX_1")].

(** What [getPaymentDetails] computed for the sheet, and the other
    captures of the [showRequest] closure. *)
Definition paymentDetails : value :=
  object [("displayItems", VArr
             [object [("amount", object [("currency", VStr "USD"); ("value", VStr "2.5")]);
                      ("label", VStr "ETH Purchase")];
              object [("amount", object [("currency", VStr "USD"); ("value", VStr "0.00")]);
                      ("label", VStr "Fee")]]);
          ("total", object [("amount", object [("currency", VStr "USD"); ("value", VStr "2.5")]);
                            ("label", VStr "Wyre")])].

Definition address : value := VStr "0x9E01E0E60dF079136a7a1d4ed97d709D5Fe3e341".
Definition network : value := VStr "1".
Definition total : value := VNum 2.5%float.

(** Confirmation details whose payment method reports a credit card. *)
Definition creditSheetDetails : value :=
  VObj (<["paymentMethod" := object [("type", VStr "credit"); ("network", VStr "Visa")]]>
          (own_props sheetDetails)).

(** An environment from a remote API and a payment sheet. No example
    prints a number. *)
Definition world
    (get : string → outcome Response)
    (post : string → value → outcome Response)
    (show : outcome (option PaymentResponse)) : Env :=
  {| FIAT_ORDER_STATES := fiatOrderStates;
     FIAT_ORDER_PROVIDERS := fiatOrderProviders;
     partnerId := VStr "AC_RNWQNRAZFPC";
     Number_toString := λ _, "0";
     wyreAPI_get := get;
     wyreAPI_post := post;
     PaymentRequest_new := λ _, Return tt;
     paymentRequest_show := show;
     paymentResponse_complete := λ _, Return tt |}.

Definition dotenv : DotEnv :=
  {| WYRE_API_ENDPOINT := VStr "https://api.sendwyre.com/";
     WYRE_API_ENDPOINT_TEST := VStr "https://api.testwyre.com/";
     WYRE_ACCOUNT_ID := VStr "AC_LIVE";
     WYRE_ACCOUNT_ID_TEST := VStr "AC_TEST";
     WYRE_MERCHANT_ID := VStr "merchant.live";
     WYRE_MERCHANT_ID_TEST := VStr "merchant.test" |}.

Definition offline : Env :=
  world (λ _, Throw networkError) (λ _ _, Throw networkError) (Throw networkError).

(** The remote API serving one order and one transfer. *)
Definition serving (order : value) : Env :=
  world (λ url, if String.eqb url "v3/orders/WO_ELTUVYCAFPG" then Return (response 200 order)
                else if String.eqb url "v2/transfer/TF_MDA6MAY848D/track" then Return (response 200 wyreTransfer)
                else Throw networkError)
        (λ _ _, Throw networkError) (Throw networkError).

(** The remote API serving the order and failing on the transfer. *)
Definition servingOrderOnly (order : value) : Env :=
  world (λ url, if String.eqb url "v3/orders/WO_ELTUVYCAFPG" then Return (response 200 order)
                else Throw networkError)
        (λ _ _, Throw networkError) (Throw networkError).

(** A checkout: the user confirms the sheet and the API answers. *)
Definition checkout (code : Z) (body : value) : Env :=
  world (λ _, Throw networkError)
        (λ _ _, Return (response code body))
        (Return (Some {| details := sheetDetails |})).

(** A checkout the user cancels. *)
Definition cancelled : Env :=
  world (λ _, Throw networkError) (λ _ _, Throw networkError)
        (Throw (ErrorObject "Error" "AbortError" ∅)).

End Examples.

Module InstaPayExamples.
Import JS InstaPay.

(** A signer that signs for anyone, the missing account included, and an
    encryptor that salts with the number of calls made so far. *)
Definition lenient (keyrings : list Keyring) : Engine :=
  {| byteArrayToHex := λ message, VStr ("0x" +:+ message);
     keyrings := keyrings;
     signPersonalMessage := λ _ messageParams, Return (object [("signed", messageParams)]);
     AsyncStorage_setItem := λ _ _, Return VUndefined |}.

Definition salting : Encryptor :=
  {| encrypt := λ log password plaintext,
       Return (object [("salt", VNum (number_of_nat (length log))); ("text", plaintext)]);
     decrypt := λ _ password ciphertext, js_get ciphertext "text" |}.

(** A private box that keeps what it is given, key by key. *)
Definition keeping : Box (gmap string value) :=
  {| privateSetBox := λ key item box, (Return VUndefined, <[key := item]> box);
     privateGetBox := λ key box, (Return (default VUndefined (box !! key)), box) |}.

End InstaPayExamples.

(* ===================================================================== *)
(** * Facts about the JavaScript fragment                                 *)
(* ===================================================================== *)

Module JSFacts.
Import JS.

Lemma starts_with_app (p r : string) : starts_with p (p +:+ r) = true.
Proof.
  induction p as [|a p IH]; simpl; [done|].
  by rewrite Ascii.eqb_refl, IH.
Qed.

Lemma starts_with_inv (p s : string) :
  starts_with p s = true → s = p +:+ substring_from (String.length p) s.
Proof.
  revert s. induction p as [|a p IH]; intros s; simpl; [done|].
  destruct s as [|b s]; [done|].
  intros [Hab Hps]%andb_prop. apply Ascii.eqb_eq in Hab as ->.
  change (String b s = String b (p +:+ substring_from (String.length p) s)).
  f_equal. by apply IH.
Qed.

Lemma substring_from_app (p r : string) :
  substring_from (String.length p) (p +:+ r) = r.
Proof. induction p as [|a p IH]; simpl; [by destruct r|done]. Qed.

(** A search that starts at position [i] answers [-1] or a position from
    [i] on, and answers [i] only for a match at the very start. *)
Lemma indexOf_from_range (p s : string) (i : Z) :
  0 ≤ i →
  (starts_with p s = true ∧ indexOf_from p s i = i)
  ∨ (starts_with p s = false ∧ (indexOf_from p s i = -1 ∨ i < indexOf_from p s i)).
Proof.
  revert i. induction s as [|b s IH]; intros i Hi.
  - simpl. destruct (starts_with p EmptyString); [by left|right; auto].
  - cbn [indexOf_from]. destruct (starts_with p (String b s)); [by left|].
    right. split; [done|].
    destruct (IH (i + 1)) as [[_ ->]|[_ [->| ?]]]; lia.
Qed.

Lemma indexOf_zero (s p : string) :
  (indexOf s p =? 0) = starts_with p s.
Proof.
  unfold indexOf.
  destruct (indexOf_from_range p s 0) as [[-> ->]|[-> [->| ?]]]; try done.
  apply Z.eqb_neq. lia.
Qed.

Lemma is_string_true (s : string) (v : value) : is_string s v = true ↔ v = VStr s.
Proof.
  destruct v; simpl; try (split; [done|discriminate]).
  rewrite String.eqb_eq. split; [by intros ->|by intros [= ->]].
Qed.

Lemma is_string_false (s : string) (v : value) : is_string s v = false ↔ v ≠ VStr s.
Proof.
  rewrite <- is_string_true. by destruct (is_string s v).
Qed.

(** Reading a property of a truthy value never throws. *)
Lemma js_get_truthy (v : value) (k : string) :
  truthy v = true → ∃ x, js_get v k = Return x.
Proof. destruct v; simpl; try discriminate; eauto. Qed.

Lemma js_get_read (v : value) (k : string) :
  truthy v = true → js_get v k = Return (read v k).
Proof. intros [x Hx]%(js_get_truthy v k). unfold read. by rewrite Hx. Qed.

Lemma js_get_defined (v : value) (k0 : string) (x : value) :
  js_get v k0 = Return x → ∀ k, js_get v k = Return (read v k).
Proof. intros H k. unfold read. by destruct v. Qed.

(** The message of an error built from a string is that string. *)
Lemma Error_message_string (Number_toString : float → string) (m : string) :
  Error_message Number_toString (VStr m) = m.
Proof. reflexivity. Qed.

Lemma js_get_object (m : gmap string value) (k : string) :
  js_get (VObj m) k = Return (default VUndefined (m !! k)).
Proof. simpl. by destruct (m !! k). Qed.

(** [includes] finds an occurrence wherever it is: at the start, in the
    middle or at the end. *)
Lemma indexOf_from_found (p s : string) (i : Z) :
  0 ≤ i → indexOf_from p s i ≠ -1 ↔ ∃ a b, s = a +:+ p +:+ b.
Proof.
  revert i. induction s as [|c s IH]; intros i Hi; cbn [indexOf_from].
  - destruct (starts_with p EmptyString) eqn:Hp.
    + split; [|lia]. intros _. exists EmptyString, EmptyString.
      by destruct p.
    + split; [done|]. intros (a & b & Hs).
      destruct a; [|discriminate]. destruct p; discriminate.
  - destruct (starts_with p (String c s)) eqn:Hp.
    + split; [|lia]. intros _. exists EmptyString. eexists.
      exact (starts_with_inv _ _ Hp).
    + rewrite (IH (i + 1)) by lia. split.
      * intros (a & b & ->). by exists (String c a), b.
      * intros (a & b & Hs). destruct a as [|c' a].
        -- change (String c s = p +:+ b) in Hs.
           rewrite Hs, starts_with_app in Hp. discriminate.
        -- injection Hs as -> ->. by exists a, b.
Qed.

Lemma includes_true (s p : string) :
  includes s p = true ↔ ∃ a b, s = a +:+ p +:+ b.
Proof.
  unfold includes, indexOf.
  rewrite <- (indexOf_from_found p s 0) by done.
  rewrite negb_true_iff, Z.eqb_neq. done.
Qed.

Lemma includes_false (s p : string) :
  includes s p = false ↔ ∀ a b, s ≠ a +:+ p +:+ b.
Proof.
  rewrite <- not_true_iff_false, includes_true. split.
  - intros H a b Hs. apply H. by exists a, b.
  - intros H (a & b & Hs). by apply (H a b).
Qed.

(** Reading a property throws for the two nullish values and for no
    other. *)
Lemma js_get_nullish (v : value) (k : string) :
  js_get v k = if is_nullish v then Throw TypeError else Return (read v k).
Proof. unfold read. by destruct v. Qed.

Lemma read_object (m : gmap string value) (k : string) :
  read (VObj m) k = default VUndefined (m !! k).
Proof. unfold read. by rewrite js_get_object. Qed.

End JSFacts.

(* ===================================================================== *)
(** * wyreApplePay.js: the order processor                                *)
(* ===================================================================== *)

Module WyreApplePayFacts.
Import JS JSFacts WyreApplePay Examples.

(** ** Address normalisation *)

(** C8. For every destination string [s], [destToAddress] returns the
    remainder [r] when [s] is the chain prefix ["ethereum:"] followed by
    [r], and returns [s] itself when [s] does not begin with that prefix. *)
Theorem destToAddress_strips_prefix (s : string) :
  (∀ r, s = "ethereum:" +:+ r → destToAddress (VStr s) = Return (VStr r))
  ∧ ((∀ r, s ≠ "ethereum:" +:+ r) → destToAddress (VStr s) = Return (VStr s)).
Proof.
  unfold destToAddress. rewrite indexOf_zero. split.
  - intros r ->. rewrite starts_with_app.
    exact (f_equal (λ x, Return (VStr x)) (substring_from_app "ethereum:" r)).
  - intros Hno. destruct (starts_with "ethereum:" s) eqn:Hs; [|done].
    apply starts_with_inv in Hs. by destruct (Hno _ Hs).
Qed.

Lemma destToAddress_strips_prefix_witness :
  destToAddress (VStr "ethereum:0xABC") = Return (VStr "0xABC")
  ∧ destToAddress (VStr "0xABC") = Return (VStr "0xABC").
Proof.
  split.
  - apply (proj1 (destToAddress_strips_prefix "ethereum:0xABC") "0xABC"). reflexivity.
  - apply (proj2 (destToAddress_strips_prefix "0xABC")). intros r. discriminate.
Defined.

(** ** The status mapping *)

(** C2. The mapping is defined on every value: [COMPLETE] goes to
    [COMPLETED], [FAILED] to [CANCELLED], and every other value
    ([RUNNING_CHECKS], [PROCESSING], an unknown string, a value that is not
    a string) to [PENDING]. *)
Theorem wyreOrderStateToFiatState_total_exact (env : Env) :
  wyreOrderStateToFiatState env (VStr "COMPLETE") = env.(FIAT_ORDER_STATES).(COMPLETED)
  ∧ wyreOrderStateToFiatState env (VStr "FAILED") = env.(FIAT_ORDER_STATES).(CANCELLED)
  ∧ (∀ v, v ≠ VStr "COMPLETE" → v ≠ VStr "FAILED" →
          wyreOrderStateToFiatState env v = env.(FIAT_ORDER_STATES).(PENDING)).
Proof.
  split; [done|]. split; [done|].
  intros v Hc Hf. unfold wyreOrderStateToFiatState.
  apply (is_string_false WYRE_ORDER_STATES.COMPLETE) in Hc.
  apply (is_string_false WYRE_ORDER_STATES.FAILED) in Hf.
  rewrite Hc, Hf.
  by repeat case_match.
Qed.

Lemma wyreOrderStateToFiatState_total_exact_witness :
  wyreOrderStateToFiatState offline (VStr "RUNNING_CHECKS") = VStr "PENDING"
  ∧ wyreOrderStateToFiatState offline (VStr "PROCESSING") = VStr "PENDING"
  ∧ wyreOrderStateToFiatState offline (VStr "REFUNDED") = VStr "PENDING"
  ∧ wyreOrderStateToFiatState offline VUndefined = VStr "PENDING".
Proof.
  pose proof (wyreOrderStateToFiatState_total_exact offline) as (_ & _ & H).
  split; [|split; [|split]]; apply H; discriminate.
Defined.

(** ** Reconciliation *)

#[local] Arguments wyreOrderToFiatOrder : simpl never.
#[local] Arguments wyreTransferToFiatOrder : simpl never.
#[local] Arguments createPayload : simpl never.
#[local] Arguments response_value : simpl never.
#[local] Arguments js_get : simpl never.
#[local] Arguments to_string : simpl never.
#[local] Arguments own_props : simpl never.
#[local] Arguments object : simpl never.
#[local] Arguments truthy : simpl never.
#[local] Arguments message_includes : simpl never.

(** Unfolds the plumbing of a computation, leaving the pure steps and the
    collaborators' answers. *)
Ltac step :=
  cbv [processWyreApplePayOrder showRequest try_catch getOrderStatus getTransferStatus
       createFiatOrder await await_in fire throw lift run
       mbind mret M_bind M_ret outcome_bind outcome_ret
       order_url transfer_url process_url validateStatus
       PAYMENT_REQUEST_COMPLETE.SUCCESS PAYMENT_REQUEST_COMPLETE.FAIL] in *;
  cbn [fst snd] in *.

Lemma wyreOrderToFiatOrder_Return (env : Env) (w o : value) :
  wyreOrderToFiatOrder env w = Return o ↔
  ∃ account, js_get w "id" = Return (read w "id")
             ∧ destToAddress (read w "dest") = Return account
             ∧ o = normalized env w account.
Proof.
  unfold wyreOrderToFiatOrder.
  destruct (js_get w "id") as [e|id] eqn:Hid.
  { split; [done|]. by intros (? & ? & _). }
  pose proof (js_get_defined w "id" id Hid "id") as Hid'.
  rewrite Hid in Hid'. injection Hid' as ->.
  rewrite !(js_get_defined w "id" _ Hid). cbn.
  destruct (destToAddress (read w "dest")) as [e|account]; cbn.
  - split; [done|]. by intros (? & _ & ? & _).
  - split.
    + intros [= <-]. by exists account.
    + by intros (? & _ & [= <-] & ->).
Qed.

Lemma normalized_lookup_other (env : Env) (w account : value) (k : string) :
  k ∉ normalizedKeys → own_props (normalized env w account) !! k = None.
Proof.
  intros Hk. unfold normalized, object, own_props.
  apply not_elem_of_list_to_map_1. cbn [fmap list_fmap fst]. exact Hk.
Qed.

(** A response, seen as an object, has none of the properties of a
    transfer: they are properties of its body. *)
Lemma wyreTransferToFiatOrder_response (env : Env) (r : Response) :
  wyreTransferToFiatOrder env (response_value r)
  = Return (object [("fee", VUndefined); ("cryptoAmount", VUndefined);
                    ("cryptoFee", VNull); ("txHash", VUndefined)]).
Proof. reflexivity. Qed.

Lemma wyreTransferToFiatOrder_keys (env : Env) (t o : value) (k : string) :
  wyreTransferToFiatOrder env t = Return o →
  k ∉ ["fee"; "cryptoAmount"; "cryptoFee"; "txHash"] →
  own_props o !! k = None.
Proof.
  unfold wyreTransferToFiatOrder. intros H Hk.
  destruct (js_get t "fee") as [|fee]; [done|].
  destruct (js_get t "destAmount") as [|destAmount]; [done|]. cbn in H.
  destruct (if truthy fee then _ else _) as [|cryptoFee]; [done|]. cbn in H.
  destruct (js_get t "blockchainNetworkTx") as [|tx]; [done|].
  injection H as <-. unfold object, own_props.
  apply not_elem_of_list_to_map_1. cbn [fmap list_fmap fst]. exact Hk.
Qed.

(** The handler never lets an error out: whatever the environment does,
    the promise resolves. *)
Lemma processWyreApplePayOrder_resolves (env : Env) (order : value) (log : list call) :
  ∃ v, (processWyreApplePayOrder env order log).1 = Return v.
Proof.
  step.
  repeat (case_match; simplify_eq/=; eauto).
Qed.

(** C1. If the order-status fetch throws, or its response body is falsy
    (empty or absent), or the transfer-status fetch throws, then
    [processWyreApplePayOrder] resolves with the very order it was given. *)
Theorem processWyreApplePayOrder_swallows (env : Env) (order : value) (log : list call) :
  (∃ id e, js_get order "id" = Return id
           ∧ env.(wyreAPI_get) (order_url env id) = Throw e)
  ∨ (∃ id response, js_get order "id" = Return id
           ∧ env.(wyreAPI_get) (order_url env id) = Return response
           ∧ truthy (data response) = false)
  ∨ (∃ id response transferId e, js_get order "id" = Return id
           ∧ env.(wyreAPI_get) (order_url env id) = Return response
           ∧ js_get (data response) "transferId" = Return transferId
           ∧ truthy transferId = true
           ∧ env.(wyreAPI_get) (transfer_url env transferId) = Throw e) →
  (processWyreApplePayOrder env order log).1 = Return order.
Proof.
  intros [(id & e & Hid & Hget)|[(id & r & Hid & Hget & Hdata)|(id & r & tid & e & Hid & Hget & Htid & Ht & Hget')]];
    step; rewrite Hid, Hget; cbn.
  - done.
  - by rewrite Hdata.
  - destruct (truthy (data r)); cbn; [|done].
    by rewrite Htid, Ht, Hget'.
Qed.

Lemma processWyreApplePayOrder_swallows_witness :
  (run (processWyreApplePayOrder offline storedOrder)).1 = Return storedOrder
  ∧ (run (processWyreApplePayOrder (serving (VStr "")) storedOrder)).1 = Return storedOrder
  ∧ (run (processWyreApplePayOrder
            (servingOrderOnly (wyreOrder (VStr "PROCESSING") (VStr "TF_MDA6MAY848D")))
            storedOrder)).1 = Return storedOrder.
Proof.
  split; [|split]; apply processWyreApplePayOrder_swallows.
  - left. exists (VStr "WO_ELTUVYCAFPG"), networkError. split; reflexivity.
  - right; left. eexists (VStr "WO_ELTUVYCAFPG"), _. repeat split; reflexivity.
  - right; right. eexists (VStr "WO_ELTUVYCAFPG"), _, (VStr "TF_MDA6MAY848D"), networkError.
    repeat split; reflexivity.
Defined.

(** C5. Whenever [processWyreApplePayOrder] resolves with something other
    than the order it was given, the [state] of the result is the fixed
    mapping applied to the status of the fetched remote order; and the
    fields [wyreTransferToFiatOrder] contributes do not include [state]. *)
Theorem state_from_order_status (env : Env) (order : value) (log : list call) (v : value) :
  (processWyreApplePayOrder env order log).1 = Return v →
  v ≠ order →
  (∃ id response,
      js_get order "id" = Return id
      ∧ env.(wyreAPI_get) (order_url env id) = Return response
      ∧ js_get v "state"
        = Return (wyreOrderStateToFiatState env (read (data response) "status")))
  ∧ (∀ t o, wyreTransferToFiatOrder env t = Return o → own_props o !! "state" = None).
Proof.
  intros Hrun Hne. split.
  2:{ intros t o Ho. apply (wyreTransferToFiatOrder_keys env t o "state" Ho).
      by apply (bool_decide_unpack _). }
  step.
  destruct (js_get order "id") as [|id] eqn:Hid; cbn in Hrun; [by simplify_eq|].
  destruct (wyreAPI_get env _) as [|response] eqn:Hget; cbn in Hrun; [by simplify_eq|].
  destruct (truthy (data response)) eqn:Hdata; cbn in Hrun; [|by simplify_eq].
  rewrite (js_get_read _ "transferId" Hdata) in Hrun. cbn in Hrun.
  exists id, response. split; [done|]. split; [done|].
  destruct (truthy (read (data response) "transferId")); cbn in Hrun.
  - destruct (wyreAPI_get env ("v2/transfer/" +:+ _)) as [|response'] eqn:Hget';
      cbn in Hrun; [by simplify_eq|].
    destruct (wyreOrderToFiatOrder env (data response)) as [|fromOrder] eqn:Ho;
      cbn in Hrun; [by simplify_eq|].
    apply wyreOrderToFiatOrder_Return in Ho as (account & _ & _ & ->).
    rewrite wyreTransferToFiatOrder_response in Hrun. cbn in Hrun.
    injection Hrun as <-. rewrite js_get_object. f_equal.
    rewrite lookup_insert_ne by done.
    rewrite lookup_union_r by reflexivity.
    by rewrite (lookup_union_Some_l _ _ _ (wyreOrderStateToFiatState env (read (data response) "status"))).
  - destruct (wyreOrderToFiatOrder env (data response)) as [|fromOrder] eqn:Ho;
      cbn in Hrun; [by simplify_eq|].
    apply wyreOrderToFiatOrder_Return in Ho as (account & _ & _ & ->).
    injection Hrun as <-. rewrite js_get_object. f_equal.
    by rewrite (lookup_union_Some_l _ _ _ (wyreOrderStateToFiatState env (read (data response) "status"))).
Qed.

Lemma state_from_order_status_witness :
  ∃ v, (run (processWyreApplePayOrder
               (serving (wyreOrder (VStr "COMPLETE") (VStr "TF_MDA6MAY848D"))) storedOrder)).1
       = Return v
       ∧ js_get v "state" = Return (VStr "COMPLETED").
Proof.
  eexists. split; [reflexivity|].
  edestruct (state_from_order_status
               (serving (wyreOrder (VStr "COMPLETE") (VStr "TF_MDA6MAY848D")))
               storedOrder [] _ eq_refl) as [(id & response & Hid & Hget & Hstate) _].
  - intros H. apply (f_equal (λ v, js_get v "txHash")) in H. vm_compute in H. discriminate.
  - injection Hid as <-. injection Hget as <-. exact Hstate.
Defined.

(** C4, as the code has it. For an order whose fetched remote order is
    truthy, carries no transfer identifier and has a destination that
    normalises, [processWyreApplePayOrder] makes the one fetch and resolves
    with the input order overlaid by all twelve fields of the normalised
    remote order: [id], [provider], [amount], [currency], [cryptocurrency],
    the mapped [state], the destination-derived [account], the raw payload
    under [data], and [fee], [cryptoAmount], [cryptoFee] and [txHash], which
    are reset to [null]. Every other field of the input order is kept. *)
Theorem processWyreApplePayOrder_without_transfer
    (env : Env) (order : value) (log : list call) (id : value) (response : Response)
    (account : value) :
  js_get order "id" = Return id →
  env.(wyreAPI_get) (order_url env id) = Return response →
  truthy (data response) = true →
  truthy (read (data response) "transferId") = false →
  destToAddress (read (data response) "dest") = Return account →
  ∃ props,
    processWyreApplePayOrder env order log
    = (Return (VObj props), log ++ [HttpGet (order_url env id)])
    ∧ props !! "id" = Some (read (data response) "id")
    ∧ props !! "provider" = Some env.(FIAT_ORDER_PROVIDERS).(WYRE_APPLE_PAY)
    ∧ props !! "amount" = Some (read (data response) "sourceAmount")
    ∧ props !! "currency" = Some (read (data response) "sourceCurrency")
    ∧ props !! "cryptocurrency" = Some (read (data response) "destCurrency")
    ∧ props !! "state"
      = Some (wyreOrderStateToFiatState env (read (data response) "status"))
    ∧ props !! "account" = Some account
    ∧ props !! "data" = Some (object [("order", data response)])
    ∧ props !! "fee" = Some VNull
    ∧ props !! "cryptoAmount" = Some VNull
    ∧ props !! "cryptoFee" = Some VNull
    ∧ props !! "txHash" = Some VNull
    ∧ (∀ k, k ∉ normalizedKeys → props !! k = own_props order !! k).
Proof.
  intros Hid Hget Hdata Htid Hdest.
  exists (own_props (normalized env (data response) account) ∪ own_props order).
  split.
  - step. rewrite Hid, Hget. cbn. rewrite Hdata. cbn.
    rewrite (js_get_read _ "transferId" Hdata). cbn. rewrite Htid.
    assert (wyreOrderToFiatOrder env (data response)
            = Return (normalized env (data response) account)) as ->; [|done].
    apply wyreOrderToFiatOrder_Return. exists account.
    split; [by apply js_get_read|done].
  - repeat (split; [by apply lookup_union_Some_l|]).
    intros k Hk. apply lookup_union_r. by apply normalized_lookup_other.
Qed.

Lemma processWyreApplePayOrder_without_transfer_witness :
  ∃ props,
    run (processWyreApplePayOrder (serving (wyreOrder (VStr "PROCESSING") VNull)) storedOrder)
    = (Return (VObj props), [HttpGet "v3/orders/WO_ELTUVYCAFPG"])
    ∧ props !! "amount" = Some (VNum 2.5%float)
    ∧ props !! "state" = Some (VStr "PENDING")
    ∧ props !! "fee" = Some VNull
    ∧ props !! "network" = Some (VStr "1").
Proof.
  destruct (processWyreApplePayOrder_without_transfer
              (serving (wyreOrder (VStr "PROCESSING") VNull)) storedOrder []
              (VStr "WO_ELTUVYCAFPG")
              (response 200 (wyreOrder (VStr "PROCESSING") VNull))
              (VStr "0x9E01E0E60dF079136a7a1d4ed97d709D5Fe3e341")
              eq_refl eq_refl eq_refl eq_refl eq_refl)
    as (props & Hrun & _ & _ & Hamount & _ & _ & Hstate & _ & _ & Hfee & _ & _ & _ & Hother).
  exists props. split; [exact Hrun|]. split; [exact Hamount|]. split; [exact Hstate|].
  split; [exact Hfee|].
  rewrite Hother; [reflexivity|]. by apply (bool_decide_unpack _).
Defined.

(** C4 as stated fails: the stored order had a fee, a crypto amount, a
    crypto fee and a transaction hash; the remote order carries no transfer
    identifier; the record returned has [null] in all four. *)
Lemma processWyreApplePayOrder_without_transfer_resets_fees :
  ∃ v,
    run (processWyreApplePayOrder (serving (wyreOrder (VStr "PROCESSING") VNull)) storedOrder)
    = (Return v, [HttpGet "v3/orders/WO_ELTUVYCAFPG"])
    ∧ js_get storedOrder "fee" = Return (VNum 0.25%float)
    ∧ js_get v "fee" = Return VNull
    ∧ js_get storedOrder "cryptoAmount" = Return (VNum 0.5%float)
    ∧ js_get v "cryptoAmount" = Return VNull
    ∧ js_get storedOrder "cryptoFee" = Return (VNum 0.125%float)
    ∧ js_get v "cryptoFee" = Return VNull
    ∧ js_get storedOrder "txHash" = Return (VStr "0xOLD")
    ∧ js_get v "txHash" = Return VNull.
Proof. eexists. repeat split; vm_compute; reflexivity. Qed.

(** C3 at a concrete exchange. The remote order carries a transfer
    identifier and the transfer is fetched; the transfer received has a fee,
    a destination amount, a fee per currency and a transaction hash. The
    record returned has none of them: [fee], [cryptoAmount] and [txHash] are
    [undefined] and [cryptoFee] is [null], because the fields are read from
    the response and not from its body. Given the transfer itself,
    [wyreTransferToFiatOrder] still yields no crypto fee: it indexes the
    number [fee] where the fee per currency is under [fees]. *)
Theorem processWyreApplePayOrder_transfer_fields_lost :
  let env := serving (wyreOrder (VStr "PROCESSING") (VStr "TF_MDA6MAY848D")) in
  ∃ v fromTransfer,
    run (processWyreApplePayOrder env storedOrder)
    = (Return v, [HttpGet "v3/orders/WO_ELTUVYCAFPG";
                  HttpGet "v2/transfer/TF_MDA6MAY848D/track"])
    ∧ env.(wyreAPI_get) "v2/transfer/TF_MDA6MAY848D/track" = Return (response 200 wyreTransfer)
    ∧ js_get wyreTransfer "fee" = Return (VNum 0.75%float)
    ∧ js_get v "fee" = Return VUndefined
    ∧ js_get wyreTransfer "destAmount" = Return (VNum 0.03125%float)
    ∧ js_get v "cryptoAmount" = Return VUndefined
    ∧ js_get (read wyreTransfer "fees") "ETH" = Return (VNum 0.0625%float)
    ∧ js_get v "cryptoFee" = Return VNull
    ∧ js_get wyreTransfer "blockchainNetworkTx" = Return (VStr "0xHASH")
    ∧ js_get v "txHash" = Return VUndefined
    ∧ wyreTransferToFiatOrder env wyreTransfer = Return fromTransfer
    ∧ js_get fromTransfer "cryptoFee" = Return VUndefined.
Proof. do 2 eexists. repeat split; vm_compute; reflexivity. Qed.

(** ** Checkout *)

(** C6, as the code has it. Once the payment request has been built, the
    user has confirmed the sheet, a payload has been built from the
    confirmation and the submission has been answered:
    - a status in 200–299 has the sheet completed with success, whatever
      the body; and when that completion resolves and the body normalises as
      a remote order, [showRequest] resolves with the normalised order record
      extended with [network];
    - a status of 300 or more has the sheet completed with failure,
      whatever the body; and when the body is not [null] or [undefined] and
      its message, as a string, does not contain ["AbortError"],
      [showRequest] aborts the payment request and throws a [WyreException]
      whose [type] and [id] are the body's [type] and [exceptionId] and whose
      message is the body's [message] as a string, which is that message
      itself when it is a string.
    Once the payment request has been built, a sheet that rejects with an
    error whose message contains ["AbortError"] (the user cancelled) makes
    [showRequest] resolve with [null]. *)
Theorem showRequest_outcomes
    (env : Env) (address network paymentDetails total : value) (log : list call) :
  env.(PaymentRequest_new) paymentDetails = Return tt →
  (∀ sheet payload response,
      env.(paymentRequest_show) = Return (Some sheet) →
      createPayload env total address (details sheet) = Return payload →
      env.(wyreAPI_post) process_url payload = Return response →
      let submitted :=
        log ++ [SheetNew paymentDetails; SheetShow; HttpPost process_url payload] in
      (200 ≤ status response < 300 →
         (∃ rest,
             (showRequest env address network paymentDetails total log).2
             = submitted ++ SheetComplete "success" :: rest)
         ∧ (∀ fromOrder,
               env.(paymentResponse_complete) "success" = Return tt →
               wyreOrderToFiatOrder env (data response) = Return fromOrder →
               showRequest env address network paymentDetails total log
               = (Return (VObj (<["network" := network]> (own_props fromOrder))),
                  submitted ++ [SheetComplete "success"])))
      ∧ (300 ≤ status response →
         (∃ rest,
             (showRequest env address network paymentDetails total log).2
             = submitted ++ SheetComplete "fail" :: rest)
         ∧ (is_nullish (data response) = false →
            includes (Error_message env.(Number_toString) (read (data response) "message"))
              "AbortError" = false →
            showRequest env address network paymentDetails total log
            = (Throw (ErrorObject "WyreException"
                        (Error_message env.(Number_toString)
                           (read (data response) "message"))
                        (<["id" := read (data response) "exceptionId"]>
                           (<["type" := read (data response) "type"]> ∅))),
               submitted ++ [SheetComplete "fail"; SheetAbort]))))
  ∧ (∀ m, Error_message env.(Number_toString) (VStr m) = m)
  ∧ (∀ error,
      env.(paymentRequest_show) = Throw error →
      message_includes error "AbortError" = Return true →
      showRequest env address network paymentDetails total log
      = (Return VNull, log ++ [SheetNew paymentDetails; SheetShow])).
Proof.
  intros Hnew. split; [|split; [done|]].
  - intros sheet payload response Hshow Hpayload Hpost. cbv zeta. split.
    + intros [Hlo Hhi]. split.
      * step. rewrite Hnew, Hshow. cbn. rewrite Hpayload. cbn. rewrite Hpost. cbn.
        rewrite !(proj2 (Z.leb_le _ _) Hlo), (proj2 (Z.ltb_lt _ _) Hhi). cbn.
        repeat (case_match; simplify_eq/=);
          eexists; rewrite <- !app_assoc; cbn [app]; reflexivity.
      * intros fromOrder Hcomplete Horder.
        step. rewrite Hnew, Hshow. cbn. rewrite Hpayload. cbn. rewrite Hpost. cbn.
        rewrite !(proj2 (Z.leb_le _ _) Hlo), (proj2 (Z.ltb_lt _ _) Hhi). cbn.
        rewrite Hcomplete, Horder. cbn. by rewrite <- !app_assoc.
    + intros Hlo. split.
      * step. rewrite Hnew, Hshow. cbn. rewrite Hpayload. cbn. rewrite Hpost. cbn.
        rewrite !(proj2 (Z.leb_le 200 _)) by lia.
        rewrite (proj2 (Z.ltb_ge _ _) Hlo). cbn.
        repeat (case_match; simplify_eq/=);
          eexists; rewrite <- !app_assoc; cbn [app]; reflexivity.
      * intros Hbody Hno.
        step. rewrite Hnew, Hshow. cbn. rewrite Hpayload. cbn. rewrite Hpost. cbn.
        rewrite !(proj2 (Z.leb_le 200 _)) by lia.
        rewrite (proj2 (Z.ltb_ge _ _) Hlo). cbn.
        rewrite !js_get_nullish, Hbody. cbn.
        unfold message_includes, WyreException. rewrite Hno. cbn.
        by rewrite <- !app_assoc.
  - intros error Hshow Habort.
    step. rewrite Hnew, Hshow. cbn. rewrite Habort. cbn. by rewrite <- !app_assoc.
Qed.

Lemma showRequest_outcomes_witness :
  (∃ v payload,
      run (showRequest (checkout 201 (wyreOrder (VStr "RUNNING_CHECKS") VNull))
             address network paymentDetails total)
      = (Return v, [SheetNew paymentDetails; SheetShow; HttpPost process_url payload;
                    SheetComplete "success"])
      ∧ js_get v "state" = Return (VStr "PENDING")
      ∧ js_get v "network" = Return (VStr "1"))
  ∧ (∃ payload,
      run (showRequest (checkout 400 (wyreError "Invalid amount"))
             address network paymentDetails total)
      = (Throw (ErrorObject "WyreException" "Invalid amount"
                  (<["id" := VStr "EX_1"]> (<["type" := VStr "ValidationException"]> ∅))),
         [SheetNew paymentDetails; SheetShow; HttpPost process_url payload;
          SheetComplete "fail"; SheetAbort]))
  ∧ run (showRequest cancelled address network paymentDetails total)
    = (Return VNull, [SheetNew paymentDetails; SheetShow]).
Proof.
  split; [|split].
  - destruct (showRequest_outcomes (checkout 201 (wyreOrder (VStr "RUNNING_CHECKS") VNull))
                address network paymentDetails total [] eq_refl) as (Hanswered & _ & _).
    edestruct (Hanswered _ _ _ eq_refl eq_refl eq_refl) as ((_ & Hok) & _); [cbn; lia|].
    do 2 eexists. split.
    + apply Hok; reflexivity.
    + split; reflexivity.
  - destruct (showRequest_outcomes (checkout 400 (wyreError "Invalid amount"))
                address network paymentDetails total [] eq_refl) as (Hanswered & _ & _).
    edestruct (Hanswered _ _ _ eq_refl eq_refl eq_refl) as (_ & (_ & Hfail)); [cbn; lia|].
    eexists. apply Hfail; reflexivity.
  - destruct (showRequest_outcomes cancelled
                address network paymentDetails total [] eq_refl) as (_ & _ & Hcancel).
    eapply Hcancel; reflexivity.
Defined.

(** C6 as stated fails on two exchanges. A remote error whose message
    contains ["AbortError"], under status 400, is taken for a cancelled
    sheet: [showRequest] resolves with [null] and throws nothing. A status
    204 with an empty body completes the sheet with success and then throws
    a [TypeError], where an order record was to be returned. *)
Lemma showRequest_outcomes_by_status_fail :
  (∃ payload,
      js_get (wyreError "AbortError: the operation was aborted") "message"
      = Return (VStr "AbortError: the operation was aborted")
      ∧ run (showRequest (checkout 400 (wyreError "AbortError: the operation was aborted"))
               address network paymentDetails total)
        = (Return VNull, [SheetNew paymentDetails; SheetShow; HttpPost process_url payload;
                          SheetComplete "fail"]))
  ∧ (∃ payload,
      run (showRequest (checkout 204 (VStr "")) address network paymentDetails total)
      = (Throw TypeError, [SheetNew paymentDetails; SheetShow; HttpPost process_url payload;
                           SheetComplete "success"; SheetAbort])).
Proof. split; eexists; [split|]; vm_compute; reflexivity. Qed.

(** ** Reconciliation: further properties *)

(** X1. Whatever the order and whatever the remote API does,
    [processWyreApplePayOrder] resolves, after at most two calls, all of
    them reads. *)
Theorem processWyreApplePayOrder_only_reads (env : Env) (order : value) (log : list call) :
  ∃ v calls,
    processWyreApplePayOrder env order log = (Return v, log ++ calls)
    ∧ (length calls ≤ 2)%nat
    ∧ forallb is_get calls = true.
Proof.
  step.
  repeat (case_match; simplify_eq/=);
    first [ eexists _, []; rewrite app_nil_r;
            split; [reflexivity|split; [simpl; lia|reflexivity]]
          | eexists _, [_]; split; [reflexivity|split; [simpl; lia|reflexivity]]
          | eexists _, [_; _]; rewrite <- app_assoc;
            split; [reflexivity|split; [simpl; lia|reflexivity]] ].
Qed.

(** The two ways to a merged record, and the only ways to anything but
    the order itself. *)
Lemma processWyreApplePayOrder_merges_order
    (env : Env) (order : value) (log : list call) (id : value) (response : Response)
    (account : value) :
  js_get order "id" = Return id →
  env.(wyreAPI_get) (order_url env id) = Return response →
  truthy (data response) = true →
  truthy (read (data response) "transferId") = false →
  destToAddress (read (data response) "dest") = Return account →
  processWyreApplePayOrder env order log
  = (Return (mergedOrder env order (data response) account),
     log ++ [HttpGet (order_url env id)]).
Proof.
  intros Hid Hget Hdata Htid Hdest.
  step. rewrite Hid, Hget. cbn. rewrite Hdata. cbn.
  rewrite (js_get_read _ "transferId" Hdata). cbn. rewrite Htid.
  assert (wyreOrderToFiatOrder env (data response)
          = Return (normalized env (data response) account)) as ->; [|done].
  apply wyreOrderToFiatOrder_Return. exists account.
  split; [by apply js_get_read|done].
Qed.

Lemma processWyreApplePayOrder_merges_transfer
    (env : Env) (order : value) (log : list call) (id : value) (response response' : Response)
    (account : value) :
  js_get order "id" = Return id →
  env.(wyreAPI_get) (order_url env id) = Return response →
  truthy (data response) = true →
  truthy (read (data response) "transferId") = true →
  env.(wyreAPI_get) (transfer_url env (read (data response) "transferId")) = Return response' →
  destToAddress (read (data response) "dest") = Return account →
  processWyreApplePayOrder env order log
  = (Return (mergedTransfer env order (data response) account response'),
     log ++ [HttpGet (order_url env id);
             HttpGet (transfer_url env (read (data response) "transferId"))]).
Proof.
  intros Hid Hget Hdata Htid Hget' Hdest.
  step. rewrite Hid, Hget. cbn. rewrite Hdata. cbn.
  rewrite (js_get_read _ "transferId" Hdata). cbn. rewrite Htid, Hget'.
  assert (wyreOrderToFiatOrder env (data response)
          = Return (normalized env (data response) account)) as ->.
  { apply wyreOrderToFiatOrder_Return. exists account.
    split; [by apply js_get_read|done]. }
  rewrite wyreTransferToFiatOrder_response. cbn. by rewrite <- app_assoc.
Qed.

Lemma processWyreApplePayOrder_cases
    (env : Env) (order : value) (log : list call) (v : value) :
  (processWyreApplePayOrder env order log).1 = Return v →
  v = order
  ∨ ∃ id response account,
      js_get order "id" = Return id
      ∧ env.(wyreAPI_get) (order_url env id) = Return response
      ∧ truthy (data response) = true
      ∧ destToAddress (read (data response) "dest") = Return account
      ∧ ((truthy (read (data response) "transferId") = false
          ∧ v = mergedOrder env order (data response) account)
         ∨ (truthy (read (data response) "transferId") = true
            ∧ ∃ response',
                env.(wyreAPI_get) (transfer_url env (read (data response) "transferId"))
                = Return response'
                ∧ v = mergedTransfer env order (data response) account response')).
Proof.
  intros Hrun.
  destruct (js_get order "id") as [e|id] eqn:Hid.
  { left. step. rewrite Hid in Hrun. by simplify_eq/=. }
  destruct (wyreAPI_get env (order_url env id)) as [e|response] eqn:Hget.
  { left. step. rewrite Hid, Hget in Hrun. by simplify_eq/=. }
  destruct (truthy (data response)) eqn:Hdata.
  2:{ left. step. rewrite Hid, Hget in Hrun. cbn in Hrun. rewrite Hdata in Hrun.
      by simplify_eq/=. }
  destruct (destToAddress (read (data response) "dest")) as [e|account] eqn:Hdest.
  { left. step. rewrite Hid, Hget in Hrun. cbn in Hrun. rewrite Hdata in Hrun.
    cbn in Hrun. rewrite (js_get_read _ "transferId" Hdata) in Hrun. cbn in Hrun.
    assert (∃ e', wyreOrderToFiatOrder env (data response) = Throw e') as [e' He'].
    { destruct (wyreOrderToFiatOrder env (data response)) as [e'|o] eqn:Ho; [by eexists|].
      apply wyreOrderToFiatOrder_Return in Ho as (account & _ & Hd & _). congruence. }
    rewrite He' in Hrun.
    destruct (truthy (read (data response) "transferId")); cbn in Hrun; [|by simplify_eq].
    destruct (wyreAPI_get env ("v2/transfer/" +:+ _)); cbn in Hrun; by simplify_eq. }
  destruct (truthy (read (data response) "transferId")) eqn:Htid.
  - destruct (wyreAPI_get env (transfer_url env (read (data response) "transferId")))
      as [e|response'] eqn:Hget'.
    + left. step. rewrite Hid, Hget in Hrun. cbn in Hrun. rewrite Hdata in Hrun.
      cbn in Hrun. rewrite (js_get_read _ "transferId" Hdata) in Hrun. cbn in Hrun.
      rewrite Htid, Hget' in Hrun. by simplify_eq/=.
    + right. exists id, response, account. repeat (split; [done|]). right.
      split; [done|]. exists response'. split; [done|].
      rewrite (processWyreApplePayOrder_merges_transfer env order log id response response'
                 account Hid Hget Hdata Htid Hget' Hdest) in Hrun.
      by injection Hrun.
  - right. exists id, response, account. repeat (split; [done|]). left.
    split; [done|].
    rewrite (processWyreApplePayOrder_merges_order env order log id response
               account Hid Hget Hdata Htid Hdest) in Hrun.
    by injection Hrun.
Qed.

(** X2. When the remote order carries a transfer identifier, the transfer
    fetch resolves and the destination normalises, the record returned
    keeps both raw payloads under [data] (the order body and the whole
    transfer response), takes amount, currency, state and account from the
    remote order, and keeps every field of the input order that is not one
    of the twelve normalised ones. *)
Theorem processWyreApplePayOrder_with_transfer
    (env : Env) (order : value) (log : list call) (id : value) (response response' : Response)
    (account : value) :
  js_get order "id" = Return id →
  env.(wyreAPI_get) (order_url env id) = Return response →
  truthy (data response) = true →
  truthy (read (data response) "transferId") = true →
  env.(wyreAPI_get) (transfer_url env (read (data response) "transferId")) = Return response' →
  destToAddress (read (data response) "dest") = Return account →
  ∃ props,
    processWyreApplePayOrder env order log
    = (Return (VObj props),
       log ++ [HttpGet (order_url env id);
               HttpGet (transfer_url env (read (data response) "transferId"))])
    ∧ props !! "data"
      = Some (object [("order", data response); ("transfer", response_value response')])
    ∧ props !! "amount" = Some (read (data response) "sourceAmount")
    ∧ props !! "currency" = Some (read (data response) "sourceCurrency")
    ∧ props !! "state"
      = Some (wyreOrderStateToFiatState env (read (data response) "status"))
    ∧ props !! "account" = Some account
    ∧ (∀ k, k ∉ normalizedKeys → props !! k = own_props order !! k).
Proof.
  intros Hid Hget Hdata Htid Hget' Hdest.
  eexists. split.
  { exact (processWyreApplePayOrder_merges_transfer env order log id response response'
             account Hid Hget Hdata Htid Hget' Hdest). }
  split; [by apply lookup_insert_eq|].
  repeat (split;
          [rewrite lookup_insert_ne by done;
           rewrite lookup_union_r by reflexivity;
           by apply lookup_union_Some_l|]).
  intros k Hk.
  assert (k ≠ "data") as Hdata' by (intros ->; apply Hk; by apply (bool_decide_unpack _)).
  rewrite lookup_insert_ne by done.
  rewrite lookup_union_r.
  - apply lookup_union_r. by apply normalized_lookup_other.
  - apply not_elem_of_list_to_map_1. cbn [fmap list_fmap fst].
    rewrite !elem_of_cons.
    intros [->|[->|[->|[->|Hin%elem_of_nil]]]]; [..|done];
      apply Hk; by apply (bool_decide_unpack _).
Qed.

Lemma processWyreApplePayOrder_with_transfer_witness :
  ∃ props,
    run (processWyreApplePayOrder
           (serving (wyreOrder (VStr "COMPLETE") (VStr "TF_MDA6MAY848D"))) storedOrder)
    = (Return (VObj props),
       [HttpGet "v3/orders/WO_ELTUVYCAFPG"; HttpGet "v2/transfer/TF_MDA6MAY848D/track"])
    ∧ props !! "state" = Some (VStr "COMPLETED")
    ∧ props !! "network" = Some (VStr "1").
Proof.
  destruct (processWyreApplePayOrder_with_transfer
              (serving (wyreOrder (VStr "COMPLETE") (VStr "TF_MDA6MAY848D"))) storedOrder []
              (VStr "WO_ELTUVYCAFPG")
              (response 200 (wyreOrder (VStr "COMPLETE") (VStr "TF_MDA6MAY848D")))
              (response 200 wyreTransfer)
              (VStr "0x9E01E0E60dF079136a7a1d4ed97d709D5Fe3e341")
              eq_refl eq_refl eq_refl eq_refl eq_refl eq_refl)
    as (props & Hrun & _ & _ & _ & Hstate & _ & Hother).
  exists props. split; [exact Hrun|]. split; [exact Hstate|].
  rewrite Hother; [reflexivity|]. by apply (bool_decide_unpack _).
Defined.

(** X3. A remote order on whose destination [destToAddress] throws (a
    missing destination, for one) leaves the order as it was, whether or not
    a transfer identifier came with it. *)
Theorem processWyreApplePayOrder_unusable_destination
    (env : Env) (order : value) (log : list call) (id : value) (response : Response) (e : exn) :
  js_get order "id" = Return id →
  env.(wyreAPI_get) (order_url env id) = Return response →
  destToAddress (read (data response) "dest") = Throw e →
  (processWyreApplePayOrder env order log).1 = Return order.
Proof.
  intros Hid Hget Hdest.
  destruct (processWyreApplePayOrder_resolves env order log) as [v Hrun].
  rewrite Hrun. f_equal.
  destruct (processWyreApplePayOrder_cases env order log v Hrun) as
    [->|(id' & response' & account & Hid' & Hget' & _ & Hdest' & _)]; [done|].
  congruence.
Qed.

Lemma processWyreApplePayOrder_unusable_destination_witness :
  (run (processWyreApplePayOrder
          (serving (object [("id", VStr "WO_ELTUVYCAFPG"); ("status", VStr "COMPLETE")]))
          storedOrder)).1
  = Return storedOrder.
Proof.
  apply (processWyreApplePayOrder_unusable_destination _ _ _ (VStr "WO_ELTUVYCAFPG")
           (response 200 (object [("id", VStr "WO_ELTUVYCAFPG"); ("status", VStr "COMPLETE")]))
           TypeError); reflexivity.
Defined.

(** The outcome does not depend on what was logged before. *)
Lemma processWyreApplePayOrder_log (env : Env) (order : value) (log log' : list call) :
  (processWyreApplePayOrder env order log).1 = (processWyreApplePayOrder env order log').1.
Proof. step. by repeat (case_match; simplify_eq/=). Qed.

Lemma overlay_twice (A B : gmap string value) : A ∪ (A ∪ B) = A ∪ B.
Proof.
  apply map_eq. intros k. rewrite !lookup_union.
  by destruct (A !! k), (B !! k).
Qed.

Lemma overlay_transfer_twice (A B C : gmap string value) (k : string) (x : value) :
  <[k := x]> (A ∪ (B ∪ <[k := x]> (A ∪ (B ∪ C)))) = <[k := x]> (A ∪ (B ∪ C)).
Proof.
  apply map_eq. intros j. destruct (decide (k = j)) as [->|Hne].
  - by rewrite !lookup_insert_eq.
  - rewrite !lookup_insert_ne by done. rewrite !lookup_union.
    rewrite lookup_insert_ne by done. rewrite !lookup_union.
    by destruct (A !! j), (B !! j), (C !! j).
Qed.

(** X4. Reconciliation is idempotent: against a remote API that answers
    under the identifier of the order it returns, reconciling the record a
    reconciliation returned gives that record again. *)
Theorem processWyreApplePayOrder_idempotent
    (env : Env) (order : value) (log log' : list call) (v : value) :
  (processWyreApplePayOrder env order log).1 = Return v →
  (∀ id response,
      js_get order "id" = Return id →
      env.(wyreAPI_get) (order_url env id) = Return response →
      order_url env (read (data response) "id") = order_url env id) →
  (processWyreApplePayOrder env v log').1 = Return v.
Proof.
  intros Hrun Hsame.
  destruct (processWyreApplePayOrder_cases env order log v Hrun) as
    [->|(id & response & account & Hid & Hget & Hdata & Hdest & Hcase)].
  { by rewrite (processWyreApplePayOrder_log env order log' log). }
  specialize (Hsame id response Hid Hget).
  destruct Hcase as [[Htid ->]|(Htid & response' & Hget' & ->)].
  - rewrite (processWyreApplePayOrder_merges_order env _ log' (read (data response) "id")
               response account); try done.
    + cbn. unfold mergedOrder. f_equal. f_equal. apply overlay_twice.
    + unfold mergedOrder. rewrite js_get_object. f_equal.
      by rewrite (lookup_union_Some_l _ _ _ (read (data response) "id")).
    + by rewrite Hsame.
  - rewrite (processWyreApplePayOrder_merges_transfer env _ log' (read (data response) "id")
               response response' account); try done.
    + cbn. unfold mergedTransfer. f_equal. f_equal. apply overlay_transfer_twice.
    + unfold mergedTransfer. rewrite js_get_object. f_equal.
      rewrite lookup_insert_ne by done.
      rewrite lookup_union_r by reflexivity.
      by rewrite (lookup_union_Some_l _ _ _ (read (data response) "id")).
    + by rewrite Hsame.
Qed.

Lemma processWyreApplePayOrder_idempotent_witness :
  ∃ v,
    (run (processWyreApplePayOrder
            (serving (wyreOrder (VStr "COMPLETE") (VStr "TF_MDA6MAY848D"))) storedOrder)).1
    = Return v
    ∧ (run (processWyreApplePayOrder
              (serving (wyreOrder (VStr "COMPLETE") (VStr "TF_MDA6MAY848D"))) v)).1
      = Return v.
Proof.
  eexists. split; [reflexivity|].
  eapply (processWyreApplePayOrder_idempotent
            (serving (wyreOrder (VStr "COMPLETE") (VStr "TF_MDA6MAY848D"))) storedOrder [] []).
  - reflexivity.
  - intros id response [= <-] [= <-]. reflexivity.
Defined.

(** ** Destinations and payloads *)

Lemma array_indexOf_range (p : string) (l : list value) (i : Z) :
  array_indexOf p l i = -1 ∨ i ≤ array_indexOf p l i.
Proof.
  revert i. induction l as [|x l IH]; intros i; simpl; [by left|].
  destruct (is_string p x); [right; lia|].
  destruct (IH (i + 1)) as [->| ?]; [by left|right; lia].
Qed.

Lemma array_indexOf_zero (p : string) (l : list value) :
  (array_indexOf p l 0 =? 0) = match l with
                               | x :: _ => is_string p x
                               | [] => false
                               end.
Proof.
  destruct l as [|x l]; simpl; [done|].
  destruct (is_string p x); [done|].
  apply Z.eqb_neq. destruct (array_indexOf_range p l (0 + 1)) as [->| ?]; lia.
Qed.

(** X5. [destToAddress] answers for strings, and for arrays that do not
    start with the string ["ethereum:"], which it returns as they are; on
    every other value it throws a [TypeError]. In particular a missing
    destination throws. *)
Theorem destToAddress_domain (dest : value) :
  ((∃ r, destToAddress dest = Return r)
   ↔ (∃ s, dest = VStr s) ∨ (∃ l, dest = VArr l ∧ head l ≠ Some (VStr "ethereum:")))
  ∧ (∀ l r, destToAddress (VArr l) = Return r → r = VArr l)
  ∧ (∀ e, destToAddress dest = Throw e → e = TypeError).
Proof.
  split; [|split].
  - split.
    + intros [r Hr]. destruct dest; try discriminate; [left; by eexists|].
      right. eexists. split; [done|].
      unfold destToAddress in Hr. rewrite array_indexOf_zero in Hr.
      destruct elems as [|x l]; [done|]. simpl.
      destruct (is_string "ethereum:" x) eqn:Hx; [done|].
      apply is_string_false in Hx. congruence.
    + intros [[s ->]|(l & -> & Hl)]; [by eexists|].
      unfold destToAddress. rewrite array_indexOf_zero.
      destruct l as [|x l]; [by eexists|].
      destruct (is_string "ethereum:" x) eqn:Hx; [|by eexists].
      apply is_string_true in Hx as ->. by destruct Hl.
  - intros l r. unfold destToAddress. by case_match; intros [= <-].
  - intros e. destruct dest; simpl; try (by intros [= <-]).
    by case_match; intros [= <-].
Qed.

Lemma destToAddress_domain_witness :
  (∃ r, destToAddress (VArr [VStr "bitcoin:"; VStr "ethereum:"]) = Return r)
  ∧ destToAddress VUndefined = Throw TypeError.
Proof.
  split.
  - apply (proj1 (destToAddress_domain _)). right. eexists. split; [reflexivity|discriminate].
  - destruct (destToAddress VUndefined) as [e|r] eqn:He; [|discriminate].
    by rewrite (proj2 (proj2 (destToAddress_domain VUndefined)) e He).
Defined.

(** Splits [createPayload] along the values it reads from. *)
Ltac payload_cases :=
  unfold createPayload, usableDetails, js_split_lines in *;
  repeat (cbn [mbind outcome_bind negb andb] in *;
          rewrite ?js_get_nullish in *;
          match goal with
          | |- context [if is_nullish ?v then _ else _] => destruct (is_nullish v) eqn:?
          | H : context [if is_nullish ?v then _ else _] |- _ => destruct (is_nullish v) eqn:?
          | |- context [match read ?v "street" with _ => _ end] =>
              destruct (read v "street") eqn:?
          | H : context [match read ?v "street" with _ => _ end] |- _ =>
              destruct (read v "street") eqn:?
          end);
  rewrite ?js_get_nullish in *;
  cbn [mbind outcome_bind negb andb] in *.

(** X7. [createPayload] succeeds exactly on confirmation details that have
    a billing contact with a postal address and a name, a shipping contact,
    and a street that is a string; on all others it throws a
    [TypeError]. *)
Theorem createPayload_domain (env : Env) (amount address details : value) :
  ((∃ payload, createPayload env amount address details = Return payload)
   ↔ usableDetails details = true)
  ∧ (∀ e, createPayload env amount address details = Throw e → e = TypeError).
Proof.
  split; [split|].
  - intros [payload H]. payload_cases; done.
  - intros H. payload_cases; try done; by eexists.
  - intros e H. payload_cases; by simplify_eq.
Qed.

Lemma createPayload_domain_witness :
  (∃ payload, createPayload offline total address sheetDetails = Return payload)
  ∧ createPayload offline total address
      (object [("billingContact", read sheetDetails "billingContact")])
    = Throw TypeError.
Proof.
  split.
  - apply (proj1 (createPayload_domain offline total address sheetDetails)). reflexivity.
  - destruct (createPayload offline total address _) as [e|payload] eqn:He; [|discriminate].
    by rewrite (proj2 (createPayload_domain _ _ _ _) e He).
Defined.

Lemma destToAddress_prefixed (r : string) :
  destToAddress (VStr ("ethereum:" +:+ r)) = Return (VStr r).
Proof.
  unfold destToAddress. rewrite indexOf_zero, starts_with_app.
  exact (f_equal (λ x, Return (VStr x)) (substring_from_app "ethereum:" r)).
Qed.

(** X6. The destination [createPayload] submits leads back to the address
    it was given: a remote order that echoes that destination is normalised
    to a record whose [account] is the address, as a string. *)
Theorem account_of_submitted_destination
    (env : Env) (amount address details payload wyreOrder : value) :
  createPayload env amount address details = Return payload →
  is_nullish wyreOrder = false →
  read wyreOrder "dest" = read (read (read payload "payload") "orderRequest") "dest" →
  ∃ fiatOrder,
    wyreOrderToFiatOrder env wyreOrder = Return fiatOrder
    ∧ read fiatOrder "account" = VStr (to_string env.(Number_toString) address).
Proof.
  intros H Hw Hdest.
  assert (read (read (read payload "payload") "orderRequest") "dest"
          = VStr ("ethereum:" +:+ to_string env.(Number_toString) address)) as Hsubmitted.
  { payload_cases; try done. by injection H as <-. }
  rewrite Hsubmitted in Hdest.
  exists (normalized env wyreOrder (VStr (to_string env.(Number_toString) address))).
  split; [|done].
  apply wyreOrderToFiatOrder_Return. eexists. split; [|split; [|done]].
  - by rewrite js_get_nullish, Hw.
  - rewrite Hdest. apply destToAddress_prefixed.
Qed.

Lemma account_of_submitted_destination_witness :
  ∃ payload fiatOrder,
    createPayload offline total address sheetDetails = Return payload
    ∧ wyreOrderToFiatOrder offline (wyreOrder (VStr "RUNNING_CHECKS") VNull) = Return fiatOrder
    ∧ read fiatOrder "account" = address.
Proof.
  eexists.
  edestruct (account_of_submitted_destination offline total address sheetDetails _
               (wyreOrder (VStr "RUNNING_CHECKS") VNull) eq_refl eq_refl eq_refl)
    as (fiatOrder & Ho & Haccount).
  exists fiatOrder. split; [reflexivity|]. split; [exact Ho|exact Haccount].
Defined.

(** X8. In every payload [createPayload] builds, the partner account is
    also the referrer, the amount is the one given, the currencies are USD
    and ETH, the payment method has type ["debit"] whatever the sheet
    reported and is otherwise the sheet's, and the shipping contact is the
    billing contact with the e-mail address and the phone number of the
    sheet's shipping contact. *)
Theorem createPayload_shape (env : Env) (amount address details payload : value) :
  createPayload env amount address details = Return payload →
  let orderRequest := read (read payload "payload") "orderRequest" in
  let paymentObject := read (read payload "payload") "paymentObject" in
  let paymentMethod := read (read paymentObject "token") "paymentMethod" in
  read payload "partnerId" = env.(partnerId)
  ∧ read orderRequest "referrerAccountId" = env.(partnerId)
  ∧ read orderRequest "amount" = amount
  ∧ read orderRequest "sourceCurrency" = VStr "USD"
  ∧ read orderRequest "destCurrency" = VStr "ETH"
  ∧ read paymentMethod "type" = VStr "debit"
  ∧ (∀ k, k ≠ "type" →
          own_props paymentMethod !! k = own_props (read details "paymentMethod") !! k)
  ∧ read (read paymentObject "shippingContact") "emailAddress"
    = read (read details "shippingContact") "emailAddress"
  ∧ read (read paymentObject "shippingContact") "phoneNumber"
    = read (read details "shippingContact") "phoneNumber"
  ∧ (∀ k, k ≠ "emailAddress" → k ≠ "phoneNumber" →
          read (read paymentObject "shippingContact") k
          = read (read paymentObject "billingContact") k).
Proof.
  intros H. payload_cases; try done. injection H as <-.
  do 5 (split; [reflexivity|]).
  split; [|split; [|split; [reflexivity|split; [reflexivity|]]]].
  - change (read (VObj (<["type" := VStr "debit"]>
                          (own_props (read details "paymentMethod")))) "type"
            = VStr "debit").
    by rewrite read_object, lookup_insert_eq.
  - intros k Hk.
    change (<["type" := VStr "debit"]> (own_props (read details "paymentMethod")) !! k
            = own_props (read details "paymentMethod") !! k).
    by rewrite lookup_insert_ne.
  - intros k Hemail Hphone.
    match goal with
    | |- context [("billingContact", ?b)] => set (billingContact := b)
    end.
    change (read (VObj (<["phoneNumber" := read (read details "shippingContact") "phoneNumber"]>
                          (<["emailAddress" := read (read details "shippingContact") "emailAddress"]>
                             (own_props billingContact)))) k
            = read billingContact k).
    rewrite read_object. by rewrite !lookup_insert_ne.
Qed.

Lemma createPayload_shape_witness :
  ∃ payload,
    createPayload offline total address creditSheetDetails = Return payload
    ∧ read (read (read (read (read payload "payload") "paymentObject") "token")
              "paymentMethod") "type" = VStr "debit"
    ∧ own_props (read (read (read (read payload "payload") "paymentObject") "token")
                   "paymentMethod") !! "network" = Some (VStr "Visa")
    ∧ read (read (read (read payload "payload") "paymentObject") "shippingContact")
        "familyName" = VStr "Doe".
Proof.
  eexists. split; [reflexivity|].
  edestruct (createPayload_shape offline total address creditSheetDetails _ eq_refl)
    as (_ & _ & _ & _ & _ & Htype & Hmethod & _ & _ & Hcontact).
  split; [exact Htype|]. split.
  - rewrite Hmethod; [reflexivity|discriminate].
  - rewrite Hcontact; [reflexivity|discriminate|discriminate].
Defined.

(** ** Checkout: further properties *)

(** X9. [createFiatOrder] makes one submission and resolves exactly with an
    answer of status 200 or more; a failure to get an answer is passed
    on. *)
Theorem createFiatOrder_resolves_from_200 (env : Env) (payload : value) (log : list call) :
  (createFiatOrder env payload log).2 = log ++ [HttpPost process_url payload]
  ∧ (∀ response,
        (createFiatOrder env payload log).1 = Return response
        ↔ env.(wyreAPI_post) process_url payload = Return response
          ∧ 200 ≤ status response)
  ∧ (∀ e, env.(wyreAPI_post) process_url payload = Throw e →
          (createFiatOrder env payload log).1 = Throw e).
Proof.
  step. split; [done|]. split.
  - intros response.
    destruct (wyreAPI_post env _ payload) as [e|r]; cbn.
    + split; [done|]. by intros [? _].
    + destruct (200 <=? status r) eqn:Hs.
      * apply Z.leb_le in Hs. split; [by intros [= <-]|]. by intros [[= <-] _].
      * apply Z.leb_gt in Hs. split; [done|]. intros [[= <-] ?]. lia.
  - by intros e ->.
Qed.

Lemma createPayload_unusable (env : Env) (amount address details : value) :
  usableDetails details = false →
  createPayload env amount address details = Throw TypeError.
Proof. intros H. payload_cases; done. Qed.

(** X10. When the payment request is built but nothing comes of the sheet
    or of the submission, [showRequest] aborts the payment request and
    throws, without ever completing the sheet:
    - the sheet resolves with nothing: an [Error] saying so, nothing
      submitted;
    - the confirmation details are unusable: a [TypeError], nothing
      submitted;
    - the submission fails with an error whose message does not contain
      ["AbortError"]: that error. *)
Theorem showRequest_failures_abort
    (env : Env) (address network paymentDetails total : value) (log : list call) :
  env.(PaymentRequest_new) paymentDetails = Return tt →
  (env.(paymentRequest_show) = Return None →
     showRequest env address network paymentDetails total log
     = (Throw (ErrorObject "Error" "Payment Request Failed" ∅),
        log ++ [SheetNew paymentDetails; SheetShow; SheetAbort]))
  ∧ (∀ sheet,
       env.(paymentRequest_show) = Return (Some sheet) →
       usableDetails (details sheet) = false →
       showRequest env address network paymentDetails total log
       = (Throw TypeError, log ++ [SheetNew paymentDetails; SheetShow; SheetAbort]))
  ∧ (∀ sheet payload e,
       env.(paymentRequest_show) = Return (Some sheet) →
       createPayload env total address (details sheet) = Return payload →
       env.(wyreAPI_post) process_url payload = Throw e →
       message_includes e "AbortError" = Return false →
       showRequest env address network paymentDetails total log
       = (Throw e, log ++ [SheetNew paymentDetails; SheetShow;
                           HttpPost process_url payload; SheetAbort])).
Proof.
  intros Hnew. split; [|split].
  - intros Hshow. step. rewrite Hnew, Hshow. cbn.
    change (message_includes _ _) with (Return (A := bool) false). cbn.
    by rewrite <- !app_assoc.
  - intros sheet Hshow Hdetails. step. rewrite Hnew, Hshow. cbn.
    rewrite (createPayload_unusable _ _ _ _ Hdetails). cbn.
    change (message_includes _ _) with (Return (A := bool) false). cbn.
    by rewrite <- !app_assoc.
  - intros sheet payload e Hshow Hpayload Hpost Habort.
    step. rewrite Hnew, Hshow. cbn. rewrite Hpayload. cbn. rewrite Hpost. cbn.
    rewrite Habort. cbn. by rewrite <- !app_assoc.
Qed.

Lemma showRequest_failures_abort_witness :
  run (showRequest (world (λ _, Throw networkError) (λ _ _, Throw networkError) (Return None))
         address network paymentDetails total)
  = (Throw (ErrorObject "Error" "Payment Request Failed" ∅),
     [SheetNew paymentDetails; SheetShow; SheetAbort])
  ∧ run (showRequest
           (world (λ _, Throw networkError) (λ _ _, Throw networkError)
              (Return (Some {| details := object [] |})))
           address network paymentDetails total)
    = (Throw TypeError, [SheetNew paymentDetails; SheetShow; SheetAbort])
  ∧ ∃ payload,
      run (showRequest
             (world (λ _, Throw networkError) (λ _ _, Throw networkError)
                (Return (Some {| details := sheetDetails |})))
             address network paymentDetails total)
      = (Throw networkError,
         [SheetNew paymentDetails; SheetShow; HttpPost process_url payload; SheetAbort]).
Proof.
  split; [|split].
  - apply (showRequest_failures_abort
             (world (λ _, Throw networkError) (λ _ _, Throw networkError) (Return None))
             address network paymentDetails total [] eq_refl). reflexivity.
  - eapply (proj1 (proj2 (showRequest_failures_abort
                            (world (λ _, Throw networkError) (λ _ _, Throw networkError)
                               (Return (Some {| details := object [] |})))
                            address network paymentDetails total [] eq_refl)));
      reflexivity.
  - eexists.
    eapply (proj2 (proj2 (showRequest_failures_abort
                            (world (λ _, Throw networkError) (λ _ _, Throw networkError)
                               (Return (Some {| details := sheetDetails |})))
                            address network paymentDetails total [] eq_refl)));
      reflexivity.
Defined.

(** X11. A sheet that rejects with an [Error] is taken for a cancellation
    exactly when ["AbortError"] occurs somewhere in its message: then
    [showRequest] resolves with [null] and leaves the payment request alone;
    otherwise it aborts the payment request and throws the error. Either way
    nothing is submitted. *)
Theorem showRequest_cancellation_by_substring
    (env : Env) (address network paymentDetails total : value) (log : list call)
    (cls message : string) (own : gmap string value) :
  env.(PaymentRequest_new) paymentDetails = Return tt →
  env.(paymentRequest_show) = Throw (ErrorObject cls message own) →
  ((∃ a b, message = a +:+ "AbortError" +:+ b) →
     showRequest env address network paymentDetails total log
     = (Return VNull, log ++ [SheetNew paymentDetails; SheetShow]))
  ∧ ((∀ a b, message ≠ a +:+ "AbortError" +:+ b) →
     showRequest env address network paymentDetails total log
     = (Throw (ErrorObject cls message own),
        log ++ [SheetNew paymentDetails; SheetShow; SheetAbort])).
Proof.
  intros Hnew Hshow. split.
  - intros Hin%includes_true. step. rewrite Hnew, Hshow. cbn.
    unfold message_includes. rewrite Hin. cbn. by rewrite <- !app_assoc.
  - intros Hout%includes_false. step. rewrite Hnew, Hshow. cbn.
    unfold message_includes. rewrite Hout. cbn. by rewrite <- !app_assoc.
Qed.

Lemma showRequest_cancellation_by_substring_witness :
  run (showRequest
         (world (λ _, Throw networkError) (λ _ _, Throw networkError)
            (Throw (ErrorObject "Error" "Sheet: AbortError (user)" ∅)))
         address network paymentDetails total)
  = (Return VNull, [SheetNew paymentDetails; SheetShow])
  ∧ run (showRequest
           (world (λ _, Throw networkError) (λ _ _, Throw networkError)
              (Throw (ErrorObject "Error" "aborterror" ∅)))
           address network paymentDetails total)
    = (Throw (ErrorObject "Error" "aborterror" ∅),
       [SheetNew paymentDetails; SheetShow; SheetAbort]).
Proof.
  split.
  - apply (showRequest_cancellation_by_substring
             (world (λ _, Throw networkError) (λ _ _, Throw networkError)
                (Throw (ErrorObject "Error" "Sheet: AbortError (user)" ∅)))
             address network paymentDetails total [] _ _ _ eq_refl eq_refl).
    by exists "Sheet: ", " (user)".
  - apply (showRequest_cancellation_by_substring
             (world (λ _, Throw networkError) (λ _ _, Throw networkError)
                (Throw (ErrorObject "Error" "aborterror" ∅)))
             address network paymentDetails total [] _ _ _ eq_refl eq_refl).
    apply includes_false. reflexivity.
Defined.

(** X12. When the sheet rejects with a value whose [message] is neither a
    string nor an array (it has none, or the value is [undefined]), the
    handler of [showRequest] throws itself: the caller gets a [TypeError] in
    place of the rejection, and the payment request is not aborted. *)
Theorem showRequest_handler_throws
    (env : Env) (address network paymentDetails total : value) (log : list call)
    (reason : value) :
  env.(PaymentRequest_new) paymentDetails = Return tt →
  env.(paymentRequest_show) = Throw (Rejection reason) →
  (∀ s, read reason "message" ≠ VStr s) →
  (∀ l, read reason "message" ≠ VArr l) →
  showRequest env address network paymentDetails total log
  = (Throw TypeError, log ++ [SheetNew paymentDetails; SheetShow]).
Proof.
  intros Hnew Hshow Hstr Harr. step. rewrite Hnew, Hshow. cbn.
  unfold message_includes. rewrite js_get_nullish.
  destruct (is_nullish reason); cbn; [by rewrite <- !app_assoc|].
  destruct (read reason "message") eqn:Hm; cbn; try by rewrite <- !app_assoc.
  - by destruct (Hstr s).
  - by destruct (Harr elems).
Qed.

Lemma showRequest_handler_throws_witness :
  run (showRequest
         (world (λ _, Throw networkError) (λ _ _, Throw networkError)
            (Throw (Rejection (object [("code", VStr "E_SHEET")]))))
         address network paymentDetails total)
  = (Throw TypeError, [SheetNew paymentDetails; SheetShow]).
Proof.
  apply (showRequest_handler_throws
           (world (λ _, Throw networkError) (λ _ _, Throw networkError)
              (Throw (Rejection (object [("code", VStr "E_SHEET")]))))
           address network paymentDetails total [] _ eq_refl eq_refl);
    intros ?; discriminate.
Defined.

(** Goes through the calls of a log that an assumed call may be. *)
Ltac in_calls Hin :=
  let Heq := fresh "Heq" in
  repeat (apply elem_of_cons in Hin as [Heq|Hin]; [try discriminate Heq|]);
  try (by apply elem_of_nil in Hin).

(** X13. [showRequest] submits nothing unless the payment request was
    built, the user confirmed the sheet and a payload could be built from
    the confirmation; what it then submits, once, is that payload. *)
Theorem showRequest_submits_only_confirmed
    (env : Env) (address network paymentDetails total : value) :
  let calls := (run (showRequest env address network paymentDetails total)).2 in
  (∀ url payload,
      HttpPost url payload ∈ calls →
      url = process_url
      ∧ env.(PaymentRequest_new) paymentDetails = Return tt
      ∧ ∃ sheet,
          env.(paymentRequest_show) = Return (Some sheet)
          ∧ createPayload env total address (details sheet) = Return payload)
  ∧ (length (List.filter is_post calls) ≤ 1)%nat.
Proof.
  cbv zeta. step.
  destruct (PaymentRequest_new env paymentDetails) as [e|[]] eqn:Hnew; cbn.
  { split; [|lia]. intros url payload Hin. in_calls Hin. }
  destruct (paymentRequest_show env) as [e|[sheet|]] eqn:Hshow; cbn.
  1,3: split; [|repeat case_match; cbn; lia];
       intros url payload Hin;
       repeat case_match; cbn in Hin; in_calls Hin.
  destruct (createPayload env total address (details sheet)) as [e|payload] eqn:Hpayload; cbn.
  { split; [|repeat case_match; cbn; lia].
    intros url payload Hin.
    repeat case_match; cbn in Hin; in_calls Hin. }
  split.
  - intros url payload' Hin.
    assert (HttpPost url payload' = HttpPost process_url payload) as [= -> ->]; [|by eauto].
    repeat (case_match; simplify_eq/=); in_calls Hin; done.
  - repeat (case_match; simplify_eq/=); lia.
Qed.

(** ** Normalised records *)

(** X19. Every record [wyreOrderToFiatOrder] builds has exactly the twelve
    normalised fields; its state is one of pending, completed and cancelled;
    its fee, crypto amount, crypto fee and transaction hash are [null]; and
    it carries the remote order it was built from under [data.order]. *)
Theorem wyreOrderToFiatOrder_record (env : Env) (wyreOrder fiatOrder : value) :
  wyreOrderToFiatOrder env wyreOrder = Return fiatOrder →
  dom (own_props fiatOrder) = list_to_set normalizedKeys
  ∧ read fiatOrder "state" ∈ [env.(FIAT_ORDER_STATES).(PENDING);
                               env.(FIAT_ORDER_STATES).(COMPLETED);
                               env.(FIAT_ORDER_STATES).(CANCELLED)]
  ∧ read fiatOrder "fee" = VNull
  ∧ read fiatOrder "cryptoAmount" = VNull
  ∧ read fiatOrder "cryptoFee" = VNull
  ∧ read fiatOrder "txHash" = VNull
  ∧ read (read fiatOrder "data") "order" = wyreOrder.
Proof.
  intros (account & _ & _ & ->)%wyreOrderToFiatOrder_Return.
  split; [|split; [|by repeat split]].
  - unfold normalized, object, own_props. by rewrite dom_list_to_map_L.
  - change (wyreOrderStateToFiatState env (read wyreOrder "status")
            ∈ [env.(FIAT_ORDER_STATES).(PENDING); env.(FIAT_ORDER_STATES).(COMPLETED);
               env.(FIAT_ORDER_STATES).(CANCELLED)]).
    unfold wyreOrderStateToFiatState. rewrite !elem_of_cons.
    repeat case_match; auto.
Qed.

Lemma wyreOrderToFiatOrder_record_witness :
  ∃ fiatOrder,
    wyreOrderToFiatOrder offline (wyreOrder (VStr "FAILED") VNull) = Return fiatOrder
    ∧ read fiatOrder "state" = VStr "CANCELLED"
    ∧ read fiatOrder "txHash" = VNull
    ∧ read (read fiatOrder "data") "order" = wyreOrder (VStr "FAILED") VNull.
Proof.
  eexists. split; [reflexivity|].
  edestruct (wyreOrderToFiatOrder_record offline (wyreOrder (VStr "FAILED") VNull) _ eq_refl)
    as (_ & _ & _ & _ & _ & Htx & Horder).
  split; [reflexivity|]. split; [exact Htx|exact Horder].
Defined.

(** ** Module constants *)

(** X14. The merchant identifier of the payment request is the test one
    under every [NODE_ENV], production included, where the partner account
    and the API endpoint are the live ones. *)
Theorem merchantIdentifier_always_test (dotenv : DotEnv) (NODE_ENV : value) :
  Config.merchantIdentifier dotenv NODE_ENV = dotenv.(WYRE_MERCHANT_ID_TEST)
  ∧ read (read (read (Config.methodData dotenv NODE_ENV) "0") "data") "merchantIdentifier"
    = dotenv.(WYRE_MERCHANT_ID_TEST)
  ∧ (NODE_ENV = VStr "production" →
     Config.partnerId dotenv NODE_ENV = dotenv.(WYRE_ACCOUNT_ID)
     ∧ Config.baseURL dotenv NODE_ENV = dotenv.(WYRE_API_ENDPOINT))
  ∧ (NODE_ENV ≠ VStr "production" →
     Config.partnerId dotenv NODE_ENV = dotenv.(WYRE_ACCOUNT_ID_TEST)
     ∧ Config.baseURL dotenv NODE_ENV = dotenv.(WYRE_API_ENDPOINT_TEST)).
Proof.
  split; [done|]. split; [done|]. split.
  - by intros ->.
  - intros Hne%(is_string_false "production").
    unfold Config.partnerId, Config.baseURL, Config.isDevelopment. by rewrite Hne.
Qed.

Lemma merchantIdentifier_always_test_witness :
  Config.merchantIdentifier Examples.dotenv (VStr "production") = VStr "merchant.test"
  ∧ Config.partnerId Examples.dotenv (VStr "production") = VStr "AC_LIVE"
  ∧ Config.partnerId Examples.dotenv VUndefined = VStr "AC_TEST".
Proof.
  destruct (merchantIdentifier_always_test Examples.dotenv (VStr "production"))
    as (Hmerchant & _ & Hlive & _).
  destruct (merchantIdentifier_always_test Examples.dotenv VUndefined) as (_ & _ & _ & Htest).
  split; [exact Hmerchant|]. split.
  - apply Hlive. reflexivity.
  - apply Htest. discriminate.
Defined.

End WyreApplePayFacts.

(* ===================================================================== *)
(** * The InstaPay mnemonic helper: passphrase and round trip             *)
(* ===================================================================== *)

Module InstaPayFacts.
Import JS InstaPay InstaPayExamples.

Ltac step_engine :=
  cbv [encryptMnenomic decryptMnemonic signMessageWithAccount0 await await_in run
       mbind mret M_bind M_ret] in *;
  cbn [fst snd] in *.

Lemma accountsOrdered_concat (env : Engine) :
  accountsOrdered env = concat (accounts <$> env.(keyrings)).
Proof.
  unfold accountsOrdered.
  assert (∀ ks acc, foldl (λ list keyring, list ++ accounts keyring) acc ks
                    = acc ++ concat (accounts <$> ks)) as H.
  { induction ks as [|k ks IH]; intros acc; simpl.
    - by rewrite app_nil_r.
    - by rewrite IH, app_assoc. }
  apply H.
Qed.

(** C9, as the code has it. The derivation makes exactly one call, asking
    the keyring controller to sign the hex form of the fixed message
    ["InstaPayMnemonic"] from the first account of the keyrings taken in
    order, or from [undefined] when there is none; and its outcome is the
    outcome of that call, so that it throws exactly when signing throws,
    with the same error. *)
Theorem signMessageWithAccount0_signs_with_first_account (env : Engine) (log : list engine_call) :
  let messageParams :=
    object [("data", env.(byteArrayToHex) "InstaPayMnemonic");
            ("from", hd VUndefined (concat (accounts <$> env.(keyrings))))] in
  signMessageWithAccount0 env MESSAGE_2_SIGN log
  = (env.(signPersonalMessage) log messageParams, log ++ [SignPersonalMessage messageParams]).
Proof.
  step_engine. unfold account0. rewrite accountsOrdered_concat.
  destruct (concat _) as [|a l]; simpl; by destruct (signPersonalMessage env log _).
Qed.

(** C9 as stated fails: with no keyring at all, or with a keyring that
    holds no account, the derivation succeeds when the signer accepts a
    request whose account is [undefined]. *)
Lemma signMessageWithAccount0_without_accounts :
  accountsOrdered (lenient []) = []
  ∧ (run (signMessageWithAccount0 (lenient []) MESSAGE_2_SIGN)).1
    = Return (object [("signed", object [("data", VStr "0xInstaPayMnemonic");
                                         ("from", VUndefined)])])
  ∧ accountsOrdered (lenient [{| accounts := [] |}]) = []
  ∧ (run (signMessageWithAccount0 (lenient [{| accounts := [] |}]) MESSAGE_2_SIGN)).1
    = Return (object [("signed", object [("data", VStr "0xInstaPayMnemonic");
                                         ("from", VUndefined)])]).
Proof. repeat split. Qed.

(** C7. When signing is deterministic (its outcome for given parameters
    does not depend on what happened before) and the encryptor decrypts
    what it encrypted under the same passphrase, decrypting the result of
    [encryptMnenomic] gives the mnemonic back. *)
Theorem decryptMnemonic_encryptMnenomic
    (env : Engine) (encryptor : Encryptor) (mnemonic encrypted : value)
    (log log' log'' : list engine_call) :
  (∀ h h' messageParams,
      env.(signPersonalMessage) h messageParams = env.(signPersonalMessage) h' messageParams) →
  (∀ h h' p x c,
      encryptor.(encrypt) h p x = Return c → encryptor.(decrypt) h' p c = Return x) →
  encryptMnenomic env encryptor mnemonic log = (Return encrypted, log') →
  (decryptMnemonic env encryptor encrypted log'').1 = Return mnemonic.
Proof.
  intros Hsign Hround Hencrypt. step_engine.
  rewrite (Hsign log'' log).
  destruct (signPersonalMessage env log _) as [e|password]; [discriminate|].
  cbn in *. injection Hencrypt as Hc _.
  by apply (Hround _ _ _ _ _ Hc).
Qed.

Lemma decryptMnemonic_encryptMnenomic_witness :
  ∃ encrypted log',
    run (encryptMnenomic (lenient [{| accounts := [VStr "0xA"; VStr "0xB"] |}]) salting
           (VStr "abandon ability able"))
    = (Return encrypted, log')
    ∧ (decryptMnemonic (lenient [{| accounts := [VStr "0xA"; VStr "0xB"] |}]) salting
         encrypted log').1
      = Return (VStr "abandon ability able").
Proof.
  do 2 eexists. split; [reflexivity|].
  eapply (decryptMnemonic_encryptMnenomic
            (lenient [{| accounts := [VStr "0xA"; VStr "0xB"] |}]) salting
            (VStr "abandon ability able") _ [] _ _).
  - reflexivity.
  - intros h h' p x c [= <-]. reflexivity.
  - reflexivity.
Defined.

(** ** The account that signs *)

(** X20. The account that signs is the first account of the first keyring
    that has one: keyrings without accounts are passed over. *)
Theorem account0_first_nonempty
    (env : Engine) (empty later : list Keyring) (keyring : Keyring)
    (account : value) (others : list value) :
  env.(keyrings) = empty ++ keyring :: later →
  Forall (λ k, accounts k = []) empty →
  accounts keyring = account :: others →
  account0 env = account.
Proof.
  intros Hkeyrings Hempty Haccounts.
  unfold account0. rewrite accountsOrdered_concat, Hkeyrings.
  rewrite fmap_app, concat_app. cbn. rewrite Haccounts.
  assert (concat (accounts <$> empty) = []) as ->; [|done].
  clear Hkeyrings. induction Hempty as [|k ks Hk _ IH]; [done|].
  cbn. by rewrite Hk, IH.
Qed.

Lemma account0_first_nonempty_witness :
  account0 (lenient [{| accounts := [] |}; {| accounts := [VStr "0xA"; VStr "0xB"] |};
                     {| accounts := [VStr "0xC"] |}])
  = VStr "0xA".
Proof.
  apply (account0_first_nonempty _ [{| accounts := [] |}] [{| accounts := [VStr "0xC"] |}]
           {| accounts := [VStr "0xA"; VStr "0xB"] |} (VStr "0xA") [VStr "0xB"]).
  - reflexivity.
  - constructor; [reflexivity|constructor].
  - reflexivity.
Defined.

(** ** Saving and restoring *)

(** X15. [saveMnemonic] signs, encrypts and stores, in that order, and
    stops at the first failure, which it passes on: when signing fails
    nothing is encrypted or stored, when encryption fails nothing is stored,
    and what is stored, under the key ["@MetaMask:InstaPayMnemonic"], is
    what the encryptor returned. *)
Theorem saveMnemonic_steps
    (env : Engine) (encryptor : Encryptor) (mnemonic : value) (log : list engine_call) :
  let messageParams :=
    object [("data", env.(byteArrayToHex) "InstaPayMnemonic"); ("from", account0 env)] in
  let signed := log ++ [SignPersonalMessage messageParams] in
  (∀ e, env.(signPersonalMessage) log messageParams = Throw e →
        saveMnemonic env encryptor mnemonic log = (Throw e, signed))
  ∧ (∀ password e,
        env.(signPersonalMessage) log messageParams = Return password →
        encryptor.(encrypt) signed password mnemonic = Throw e →
        saveMnemonic env encryptor mnemonic log
        = (Throw e, signed ++ [Encrypt password mnemonic]))
  ∧ (∀ password encrypted,
        env.(signPersonalMessage) log messageParams = Return password →
        encryptor.(encrypt) signed password mnemonic = Return encrypted →
        saveMnemonic env encryptor mnemonic log
        = (env.(AsyncStorage_setItem) "@MetaMask:InstaPayMnemonic" encrypted,
           signed ++ [Encrypt password mnemonic;
                      SetItem "@MetaMask:InstaPayMnemonic" encrypted])).
Proof.
  cbv zeta. unfold saveMnemonic. step_engine. unfold MESSAGE_2_SIGN. split; [|split].
  - by intros e ->.
  - by intros password e -> ->.
  - intros password encrypted -> ->. cbn.
    rewrite <- app_assoc. by destruct (AsyncStorage_setItem env _ encrypted).
Qed.

Lemma saveMnemonic_steps_witness :
  run (saveMnemonic (lenient [{| accounts := [VStr "0xA"] |}]) salting (VStr "abandon"))
  = (Return VUndefined,
     [SignPersonalMessage (object [("data", VStr "0xInstaPayMnemonic"); ("from", VStr "0xA")]);
      Encrypt (object [("signed", object [("data", VStr "0xInstaPayMnemonic");
                                          ("from", VStr "0xA")])])
              (VStr "abandon");
      SetItem "@MetaMask:InstaPayMnemonic"
              (object [("salt", VNum (number_of_nat 1)); ("text", VStr "abandon")])]).
Proof.
  apply (proj2 (proj2 (saveMnemonic_steps (lenient [{| accounts := [VStr "0xA"] |}]) salting
                         (VStr "abandon") []))); reflexivity.
Defined.

(** X16. Backup and restore go through the same slot: with a
    deterministic signer, an encryptor that decrypts what it encrypted and a
    private box that gives back under a key what was last put under it,
    encrypting a mnemonic, backing it up, fetching the backup and decrypting
    it gives the mnemonic. *)
Theorem restore_after_backup
    {B : Type} (env : Engine) (encryptor : Encryptor) (instance : Box B)
    (mnemonic encrypted answer : value) (log log' log'' : list engine_call) (box box' : B) :
  (∀ h h' messageParams,
      env.(signPersonalMessage) h messageParams = env.(signPersonalMessage) h' messageParams) →
  (∀ h h' p x c,
      encryptor.(encrypt) h p x = Return c → encryptor.(decrypt) h' p c = Return x) →
  (∀ key item b b' r,
      instance.(privateSetBox) key item b = (Return r, b') →
      (instance.(privateGetBox) key b').1 = Return item) →
  encryptMnenomic env encryptor mnemonic log = (Return encrypted, log') →
  backupMnemonic instance encrypted box = (Return answer, box') →
  ∃ fetched,
    (getMnemonicFromBackup instance box').1 = Return fetched
    ∧ (decryptMnemonic env encryptor fetched log'').1 = Return mnemonic.
Proof.
  intros Hsign Hround Hbox Hencrypt Hbackup.
  exists encrypted. split.
  - exact (Hbox _ _ _ _ _ Hbackup).
  - step_engine. rewrite (Hsign log'' log).
    destruct (signPersonalMessage env log _) as [e|password]; [discriminate|].
    cbn in *. injection Hencrypt as Hc _.
    by apply (Hround _ _ _ _ _ Hc).
Qed.

Lemma restore_after_backup_witness :
  ∃ encrypted log' box' fetched,
    run (encryptMnenomic (lenient [{| accounts := [VStr "0xA"] |}]) salting (VStr "abandon"))
    = (Return encrypted, log')
    ∧ backupMnemonic keeping encrypted (∅ : gmap string value) = (Return VUndefined, box')
    ∧ (getMnemonicFromBackup keeping box').1 = Return fetched
    ∧ (decryptMnemonic (lenient [{| accounts := [VStr "0xA"] |}]) salting fetched log').1
      = Return (VStr "abandon").
Proof.
  edestruct (restore_after_backup (lenient [{| accounts := [VStr "0xA"] |}]) salting keeping
               (VStr "abandon"))
    with (log := @nil engine_call) (box := (∅ : gmap string value))
    as (fetched & Hfetch & Hdecrypt).
  - reflexivity.
  - intros h h' p x c [= <-]. reflexivity.
  - intros key item b b' r [= _ <-]. cbn. by rewrite lookup_insert_eq.
  - reflexivity.
  - reflexivity.
  - eexists _, _, _, fetched. split; [reflexivity|]. split; [reflexivity|].
    split; [exact Hfetch|exact Hdecrypt].
Defined.

End InstaPayFacts.

(* ===================================================================== *)
(** * The EnterPasswordSimple screen: the confirm button                  *)
(* ===================================================================== *)

Module EnterPasswordSimpleFacts.
Import JS EnterPasswordSimple EnterPasswordSimpleExamples.

Ltac step_ui :=
  cbv [onPressConfirm await await_in run mbind mret M_bind M_ret] in *;
  cbn [fst snd app] in *.

(** C10, as the code has it. While a confirm is loading, pressing confirm
    calls nothing. With a password of fewer than 8 code units it raises the
    alert and calls neither [onPasswordSet] nor [pop]. With 8 or more it
    calls [onPasswordSet] once, with that password; when the callback
    returns it then calls [pop], and when the callback throws, the handler
    throws that error and [pop] is not called. *)
Theorem onPressConfirm_checks_length
    (strings : string → string) (Alert_alert : string → string → outcome value)
    (props : Props) (state : State) :
  (loading state = true →
     run (onPressConfirm strings Alert_alert props state) = (Return tt, []))
  ∧ (loading state = false → (length (password state) < 8)%nat →
     (run (onPressConfirm strings Alert_alert props state)).2
     = [AlertAlert (strings "enter_password.error")
                   (strings "choose_password.password_length_error")])
  ∧ (loading state = false → (8 ≤ length (password state))%nat →
     (∀ r, props.(onPasswordSet) (password state) = Return r →
           (run (onPressConfirm strings Alert_alert props state)).2
           = [OnPasswordSet (password state); NavigationPop])
     ∧ (∀ e, props.(onPasswordSet) (password state) = Throw e →
             run (onPressConfirm strings Alert_alert props state)
             = (Throw e, [OnPasswordSet (password state)]))
     ∧ List.filter calls_onPasswordSet
         (run (onPressConfirm strings Alert_alert props state)).2
       = [OnPasswordSet (password state)]).
Proof.
  step_ui. split; [|split].
  - by intros ->.
  - intros -> Hshort.
    rewrite (proj2 (Z.ltb_lt _ 8)) by lia.
    by destruct (Alert_alert _ _).
  - intros -> Hlong.
    rewrite (proj2 (Z.ltb_ge _ 8)) by lia.
    split; [|split].
    + intros r ->. by destruct (navigation_pop props).
    + by intros e ->.
    + destruct (onPasswordSet props (password state)); [done|].
      by destruct (navigation_pop props).
Qed.

Lemma onPressConfirm_checks_length_witness :
  run (onPressConfirm (λ key, key) showing accepting
         {| password := ascii_text "hunter2hunter2"; loading := true; error := VNull |})
  = (Return tt, [])
  ∧ (run (onPressConfirm (λ key, key) showing accepting
            (onPasswordChange cyrillic7 initialState))).2
    = [AlertAlert "enter_password.error" "choose_password.password_length_error"]
  ∧ (run (onPressConfirm (λ key, key) showing accepting
            (onPasswordChange astral4 initialState))).2
    = [OnPasswordSet astral4; NavigationPop].
Proof.
  split; [|split].
  - apply (onPressConfirm_checks_length (λ key, key) showing accepting). reflexivity.
  - apply (proj1 (proj2 (onPressConfirm_checks_length (λ key, key) showing accepting
                           (onPasswordChange cyrillic7 initialState))));
      [reflexivity|simpl; lia].
  - destruct (proj2 (proj2 (onPressConfirm_checks_length (λ key, key) showing accepting
                              (onPasswordChange astral4 initialState))))
      as (Hreturns & _ & _); [reflexivity|simpl; lia|].
    by apply (Hreturns VUndefined).
Defined.

(** C10 as stated fails: with a password of 14 code units and a callback
    that throws, [onPasswordSet] is called and navigation is not popped. *)
Lemma onPressConfirm_callback_throws :
  length (ascii_text "hunter2hunter2") = 14%nat
  ∧ run (onPressConfirm (λ key, key) showing refusing
           (onPasswordChange (ascii_text "hunter2hunter2") initialState))
    = (Throw (ErrorObject "Error" "wrong password" ∅),
       [OnPasswordSet (ascii_text "hunter2hunter2")])
  ∧ List.filter calls_pop
      (run (onPressConfirm (λ key, key) showing refusing
              (onPasswordChange (ascii_text "hunter2hunter2") initialState))).2
    = [].
Proof. split; [|split]; reflexivity. Qed.

(** X17. The confirm button is never disabled: its condition holds for no
    password, the empty one included. *)
Theorem submitDisabled_never (state : State) : submitDisabled state = false.
Proof.
  unfold submitDisabled. by destruct (password state).
Qed.

Lemma loading_foldl (vals : list (list N)) (state : State) :
  loading (foldl (λ state val, onPasswordChange val state) state vals) = loading state.
Proof.
  revert state. induction vals as [|val vals IH]; intros state; [done|].
  cbn [foldl]. by rewrite IH.
Qed.

Lemma password_foldl (vals : list (list N)) (state : State) :
  password (foldl (λ state val, onPasswordChange val state) state vals)
  = default (password state) (last vals).
Proof.
  revert state. induction vals as [|val vals IH]; intros state; [done|].
  cbn [foldl]. rewrite IH, last_cons. by destruct (last vals).
Qed.

(** X18. After any sequence of edits from the initial state, pressing
    confirm never does nothing (no edit sets [loading]). When the value
    typed last, or the empty initial password when nothing was typed, has
    fewer than 8 code units, it raises the alert and calls nothing else.
    Otherwise it calls [onPasswordSet] with exactly that value; when the
    callback returns it then calls [pop], and when the callback throws, the
    handler throws that error and [pop] is not called. *)
Theorem onPressConfirm_afterEdits
    (strings : string → string) (Alert_alert : string → string → outcome value)
    (props : Props) (vals : list (list N)) :
  let typed := default [] (last vals) in
  ((length typed < 8)%nat →
     (run (onPressConfirm strings Alert_alert props (afterEdits vals))).2
     = [AlertAlert (strings "enter_password.error")
                   (strings "choose_password.password_length_error")])
  ∧ ((8 ≤ length typed)%nat →
     (∀ r, props.(onPasswordSet) typed = Return r →
           (run (onPressConfirm strings Alert_alert props (afterEdits vals))).2
           = [OnPasswordSet typed; NavigationPop])
     ∧ (∀ e, props.(onPasswordSet) typed = Throw e →
             run (onPressConfirm strings Alert_alert props (afterEdits vals))
             = (Throw e, [OnPasswordSet typed]))).
Proof.
  cbv zeta. step_ui. unfold afterEdits.
  rewrite loading_foldl, password_foldl. cbn [loading password initialState].
  split; intros Hlength.
  - rewrite (proj2 (Z.ltb_lt _ 8)) by lia. by destruct (Alert_alert _ _).
  - rewrite (proj2 (Z.ltb_ge _ 8)) by lia. split.
    + intros r ->. by destruct (navigation_pop props).
    + by intros e ->.
Qed.

Lemma onPressConfirm_afterEdits_witness :
  (run (onPressConfirm (λ key, key) showing accepting (afterEdits []))).2
  = [AlertAlert "enter_password.error" "choose_password.password_length_error"]
  ∧ (run (onPressConfirm (λ key, key) showing accepting
            (afterEdits [ascii_text "h"; astral4; cyrillic7]))).2
    = [AlertAlert "enter_password.error" "choose_password.password_length_error"]
  ∧ (run (onPressConfirm (λ key, key) showing accepting
            (afterEdits [ascii_text "h"; cyrillic7; ascii_text "hunter22"]))).2
    = [OnPasswordSet (ascii_text "hunter22"); NavigationPop]
  ∧ run (onPressConfirm (λ key, key) showing refusing
           (afterEdits [ascii_text "h"; cyrillic7; ascii_text "hunter22"]))
    = (Throw (ErrorObject "Error" "wrong password" ∅),
       [OnPasswordSet (ascii_text "hunter22")]).
Proof.
  split; [|split; [|split]].
  - apply (proj1 (onPressConfirm_afterEdits (λ key, key) showing accepting [])). simpl. lia.
  - apply (proj1 (onPressConfirm_afterEdits (λ key, key) showing accepting
                    [ascii_text "h"; astral4; cyrillic7])). simpl. lia.
  - destruct (proj2 (onPressConfirm_afterEdits (λ key, key) showing accepting
                       [ascii_text "h"; cyrillic7; ascii_text "hunter22"]))
      as (Hreturns & _); [simpl; lia|].
    by apply (Hreturns VUndefined).
  - destruct (proj2 (onPressConfirm_afterEdits (λ key, key) showing refusing
                       [ascii_text "h"; cyrillic7; ascii_text "hunter22"]))
      as (_ & Hthrows); [simpl; lia|].
    by apply Hthrows.
Defined.

End EnterPasswordSimpleFacts.
